(** * LoanMate voice bot (app.py): the call session, the prompt composer
      and the Python values they handle, embedded in Rocq.

    The development follows [app.py] function by function.

    - Values held by a customer row are modelled by [pyval]: [None], [bool],
      [int], [float] and [str], the scalars a cell of the table can hold.  A
      [float] is an IEEE binary64 number of the standard library's
      [SpecFloat]; [float()], [int()], [str()], truth and the format
      [",.2f"] are written out for them, as CPython 3.11 computes them: an
      [int] of more than 4300 decimal digits is neither printed nor read.
    - Text is modelled by ASCII strings: [lower()] and [strip()] act on the
      ASCII letters and white space.
    - A [dict] is a [gmap] from keys to values; the table of customers is the
      list of its rows.
    - The handlers run in a state and exception monad over the process-wide
      [active_call_data]: what a handler wrote stays written when it raises.
      The coroutines are awaited one after the other, so they are modelled
      as plain calls.
    - The services outside the process (speech to text, the language model,
      speech synthesis) answer as they like: a request is given their
      answers, and a property holds for all of them. *)

From Stdlib Require Import ZArith String Ascii List Bool Lia.
From Stdlib Require Import Floats.SpecFloat DecimalString DecimalFacts.
From stdpp Require Import base option list gmap strings.

Local Open Scope string_scope.
Local Open Scope Z_scope.

(** ** Exceptions and results *)

Inductive exn :=
| ValueError
| TypeError
| OverflowError
| KeyError
| AttributeError
| HTTPException
| ServiceError.

Inductive result (A : Type) :=
| Ok (a : A)
| Raise (e : exn).
Arguments Ok {A} a.
Arguments Raise {A} e.

Definition rbind {A B} (r : result A) (k : A -> result B) : result B :=
  match r with
  | Ok a => k a
  | Raise e => Raise e
  end.

Definition is_ok {A} (r : result A) : bool :=
  match r with Ok _ => true | Raise _ => false end.

(** ** Text *)

Definition dq : string := String (ascii_of_nat 34) EmptyString.
Definition nl : string := String (ascii_of_nat 10) EmptyString.

Definition chars (s : string) : list ascii := list_ascii_of_string s.
Definition text (l : list ascii) : string := string_of_list_ascii l.

(** [c.isspace()] on the ASCII range. *)
Definition is_space (c : ascii) : bool :=
  let n := nat_of_ascii c in
  (((9 <=? n) && (n <=? 13)) || ((28 <=? n) && (n <=? 32)))%nat.

Definition lower_char (c : ascii) : ascii :=
  let n := nat_of_ascii c in
  if ((65 <=? n) && (n <=? 90))%nat then ascii_of_nat (n + 32) else c.

(** [s.lower()] *)
Fixpoint lower (s : string) : string :=
  match s with
  | EmptyString => EmptyString
  | String c r => String (lower_char c) (lower r)
  end.

Fixpoint lstrip_chars (l : list ascii) : list ascii :=
  match l with
  | c :: r => if is_space c then lstrip_chars r else l
  | [] => []
  end.

(** [s.strip()] *)
Definition strip (s : string) : string :=
  text (rev (lstrip_chars (rev (lstrip_chars (chars s))))).

Fixpoint starts_with (p s : string) : bool :=
  match p, s with
  | EmptyString, _ => true
  | String a p', String b s' => if Ascii.eqb a b then starts_with p' s' else false
  | String _ _, EmptyString => false
  end.

(** [sub in s] *)
Fixpoint py_in (sub s : string) : bool :=
  starts_with sub s ||
  match s with
  | EmptyString => false
  | String _ r => py_in sub r
  end.

Definition str_nonempty (s : string) : bool :=
  match s with EmptyString => false | String _ _ => true end.

(** ** Numbers *)

Definition prec : Z := 53.
Definition emax : Z := 1024.

Abbreviation float := spec_float.

(** Decimal digits of a natural number, as [str(n)] prints them. *)
Definition digits_of_N (n : N) : string := NilZero.string_of_uint (N.to_uint n).

(** The decimal text of an [int]. *)
Definition decimal_of_Z (z : Z) : string :=
  match z with
  | Zneg p => "-" ++ digits_of_N (Npos p)
  | _ => digits_of_N (Z.to_N z)
  end.

(** [sys.get_int_max_str_digits()], as the interpreter starts: an [int] is
    neither printed with more decimal digits nor read from more. *)
Definition int_max_str_digits : nat := 4300.

(** [z] has no more decimal digits than the limit. *)
Definition within_int_max_str_digits (z : Z) : bool :=
  (String.length (digits_of_N (Z.abs_N z)) <=? int_max_str_digits)%nat.

(** [str(z)] for an [int]: [ValueError] beyond the limit on digits. *)
Definition str_of_Z (z : Z) : result string :=
  if within_int_max_str_digits z then Ok (decimal_of_Z z) else Raise ValueError.

(** [float(z)] for an [int]: round to nearest even; an [int] beyond the
    binary64 range raises [OverflowError]. *)
Definition float_of_Z (z : Z) : result float :=
  match binary_normalize prec emax z 0 false with
  | S754_infinity _ => Raise OverflowError
  | f => Ok f
  end.

(** The nearest binary64 number to [n / d] ([n], [d] positive), with sign. *)
Definition float_of_ratio (s : bool) (n d : positive) : float :=
  SFdiv prec emax (S754_finite s n 0) (S754_finite false d 0).

(** The nearest binary64 number to [n * 10 ^ e10], with sign [s]. *)
Definition float_of_decimal (s : bool) (n : N) (e10 : Z) : float :=
  match n with
  | N0 => S754_zero s
  | Npos p =>
      if 0 <=? e10
      then binary_normalize prec emax
             (if s then Zneg (p * Z.to_pos (10 ^ e10)) else Zpos (p * Z.to_pos (10 ^ e10)))
             0 false
      else float_of_ratio s p (Z.to_pos (10 ^ (- e10)))
  end.

(** [round(q)] to the nearest integer, ties to even, for [q = n / d]. *)
Definition round_half_even (n d : Z) : Z :=
  let q := n / d in
  let r := n mod d in
  match 2 * r ?= d with
  | Lt => q
  | Gt => q + 1
  | Eq => if Z.even q then q else q + 1
  end.

(** Hundredths of the magnitude [m * 2 ^ e], correctly rounded. *)
Definition cents_of (m : positive) (e : Z) : Z :=
  if 0 <=? e then Zpos m * 2 ^ e * 100
  else round_half_even (Zpos m * 100) (2 ^ (- e)).

(** Thousands separators: a comma before every group of three digits,
    counted from the right. *)
Fixpoint group_rev (rev_digits : list ascii) (i : nat) : list ascii :=
  match rev_digits with
  | [] => []
  | c :: r =>
      match i with
      | 3%nat => "," %char :: c :: group_rev r 1
      | _ => c :: group_rev r (S i)
      end
  end.

Definition group_thousands (digits : string) : string :=
  text (rev (group_rev (rev (chars digits)) 0)).

Definition two_digits (n : Z) : string :=
  (if n <? 10 then "0" else EmptyString) ++ digits_of_N (Z.to_N n).

Definition sign_text (s : bool) : string := if s then "-" else EmptyString.

(** [format(x, ",.2f")] *)
Definition format_f2 (x : float) : string :=
  match x with
  | S754_nan => "nan"
  | S754_infinity s => sign_text s ++ "inf"
  | S754_zero s => sign_text s ++ "0.00"
  | S754_finite s m e =>
      let c := cents_of m e in
      sign_text s ++ group_thousands (digits_of_N (Z.to_N (c / 100)))
        ++ "." ++ two_digits (c mod 100)
  end.

(** [int(x)] for a [float]: truncation toward zero. *)
Definition int_of_float (x : float) : result Z :=
  match x with
  | S754_nan => Raise ValueError
  | S754_infinity _ => Raise OverflowError
  | S754_zero _ => Ok 0
  | S754_finite s m e =>
      let a := if 0 <=? e then Zpos m * 2 ^ e else Zpos m / 2 ^ (- e) in
      Ok (if s then - a else a)
  end.

(** *** Reading numbers from text *)

Definition is_digit (c : ascii) : bool :=
  let n := nat_of_ascii c in ((48 <=? n) && (n <=? 57))%nat.

Definition digit_val (c : ascii) : N := N.of_nat (nat_of_ascii c - 48).

Definition N_of_digits (ds : list ascii) : N :=
  fold_left (fun a c => (10 * a + digit_val c)%N) ds 0%N.

(** [digit (["_"] digit)*]: the digits read and the text left over. *)
Fixpoint digitpart (l : list ascii) : list ascii * list ascii :=
  match l with
  | c :: r =>
      if is_digit c then
        match r with
        | u :: ((c2 :: _) as r2) =>
            if Ascii.eqb u "_" && is_digit c2
            then let (ds, rest) := digitpart r2 in (c :: ds, rest)
            else let (ds, rest) := digitpart r in (c :: ds, rest)
        | _ => let (ds, rest) := digitpart r in (c :: ds, rest)
        end
      else ([], l)
  | [] => ([], [])
  end.

Definition take_sign (l : list ascii) : bool * list ascii :=
  match l with
  | c :: r =>
      if Ascii.eqb c "-" then (true, r)
      else if Ascii.eqb c "+" then (false, r)
      else (false, l)
  | [] => (false, [])
  end.

(** [int(s)] for a [str], base ten: [ValueError] for text that is not an
    integer literal and for one of more digits than the limit. *)
Definition int_of_str (s : string) : result Z :=
  let (neg, r) := take_sign (chars (strip s)) in
  match digitpart r with
  | ((_ :: _) as ds, []) =>
      if (int_max_str_digits <? length ds)%nat then Raise ValueError
      else let n := Z.of_N (N_of_digits ds) in Ok (if neg then - n else n)
  | _ => Raise ValueError
  end.

(** The optional exponent that ends a float literal. *)
Definition parse_exponent (l : list ascii) : option Z :=
  match l with
  | [] => Some 0
  | c :: r =>
      if Ascii.eqb (lower_char c) "e" then
        let (neg, r1) := take_sign r in
        match digitpart r1 with
        | ((_ :: _) as ds, []) =>
            let n := Z.of_N (N_of_digits ds) in Some (if neg then - n else n)
        | _ => None
        end
      else None
  end.

(** [number [exponent]]: the decimal mantissa and the power of ten. *)
Definition parse_floatnumber (l : list ascii) : option (N * Z) :=
  let (ip, r1) := digitpart l in
  match r1 with
  | c :: r2 =>
      if Ascii.eqb c "." then
        let (fp, r3) := digitpart r2 in
        match ip, fp with
        | [], [] => None
        | _, _ =>
            match parse_exponent r3 with
            | Some ex => Some (N_of_digits (ip ++ fp), ex - Z.of_nat (length fp))
            | None => None
            end
        end
      else
        match ip, parse_exponent r1 with
        | _ :: _, Some ex => Some (N_of_digits ip, ex)
        | _, _ => None
        end
  | [] =>
      match ip with
      | _ :: _ => Some (N_of_digits ip, 0)
      | [] => None
      end
  end.

(** [float(s)] for a [str]. *)
Definition float_of_str (s : string) : result float :=
  let (neg, r) := take_sign (chars (strip s)) in
  let w := lower (text r) in
  if String.eqb w "inf" || String.eqb w "infinity" then Ok (S754_infinity neg)
  else if String.eqb w "nan" then Ok S754_nan
  else match parse_floatnumber r with
       | Some (n, e10) => Ok (float_of_decimal neg n e10)
       | None => Raise ValueError
       end.

(** *** Printing a float: [repr(x)], the shortest text that reads back as [x] *)

(** The magnitude [m * 2 ^ e] as a fraction. *)
Definition frac_of (m : positive) (e : Z) : Z * Z :=
  if 0 <=? e then (Zpos m * 2 ^ e, 1) else (Zpos m, 2 ^ (- e)).

(** The fraction [n / d] times [10 ^ k]. *)
Definition scale10 (nd : Z * Z) (k : Z) : Z * Z :=
  let (n, d) := nd in
  if 0 <=? k then (n * 10 ^ k, d) else (n, d * 10 ^ (- k)).

(** The position [k] of the decimal point: [10 ^ (k - 1) <= n / d < 10 ^ k]. *)
Fixpoint decpt_below (fuel : nat) (nd : Z * Z) (k : Z) : Z :=
  match fuel with
  | O => k
  | S fuel' =>
      let (n, d) := scale10 nd (1 - k) in
      if d <=? n then k else decpt_below fuel' nd (k - 1)
  end.

Definition decpt_of (nd : Z * Z) : Z :=
  let (n, d) := nd in
  if d <=? n then Z.of_nat (String.length (digits_of_N (Z.to_N (n / d))))
  else decpt_below 400 nd 0.

Definition float_eqb (x y : float) : bool :=
  match x, y with
  | S754_finite s m e, S754_finite s' m' e' =>
      Bool.eqb s s' && Pos.eqb m m' && Z.eqb e e'
  | _, _ => false
  end.

(** The shortest digit string, tried with [p], [p + 1], ... significant
    digits: of the two [p]-digit neighbours of [x] the nearer one that
    reads back as [x]. *)
Fixpoint shortest_digits (fuel : nat) (x : float) (nd : Z * Z) (k p : Z) : Z * Z :=
  let (sn, sd) := scale10 nd (p - k) in
  let lo := sn / sd in
  let hi := lo + 1 in
  match fuel with
  | O => (lo, k - p)
  | S fuel' =>
      let ok c := float_eqb (float_of_decimal false (Z.to_N c) (k - p)) x in
      match ok lo, ok hi with
      | true, true =>
          match 2 * sn ?= (2 * lo + 1) * sd with
          | Lt => (lo, k - p)
          | Gt => (hi, k - p)
          | Eq => if Z.even lo then (lo, k - p) else (hi, k - p)
          end
      | true, false => (lo, k - p)
      | false, true => (hi, k - p)
      | false, false => shortest_digits fuel' x nd k (p + 1)
      end
  end.

Fixpoint rstrip_zeros (rev_digits : list ascii) : list ascii :=
  match rev_digits with
  | c :: r => if Ascii.eqb c "0" then rstrip_zeros r else rev_digits
  | [] => []
  end.

Definition zeros (n : Z) : string := text (repeat "0"%char (Z.to_nat n)).

(** Fixed or exponent notation, as [repr] chooses between them. *)
Definition place_point (digits : list ascii) (decpt : Z) : string :=
  let n := Z.of_nat (length digits) in
  if (decpt <=? -4) || (16 <? decpt) then
    let ex := decpt - 1 in
    text (firstn 1 digits)
      ++ (match skipn 1 digits with [] => EmptyString | r => "." ++ text r end)
      ++ "e" ++ (if ex <? 0 then "-" else "+") ++ two_digits (Z.abs ex)
  else if decpt <=? 0 then "0." ++ zeros (- decpt) ++ text digits
  else if n <=? decpt then text digits ++ zeros (decpt - n) ++ ".0"
  else text (firstn (Z.to_nat decpt) digits) ++ "." ++ text (skipn (Z.to_nat decpt) digits).

(** [repr(x)], which is also [str(x)] and [format(x, "")]. *)
Definition repr_float (x : float) : string :=
  match x with
  | S754_nan => "nan"
  | S754_infinity s => sign_text s ++ "inf"
  | S754_zero s => sign_text s ++ "0.0"
  | S754_finite s m e =>
      let nd := frac_of m e in
      let (c, e10) := shortest_digits 17 (S754_finite false m e) nd (decpt_of nd) 1 in
      let ds := chars (digits_of_N (Z.to_N c)) in
      let decpt := Z.of_nat (length ds) + e10 in
      sign_text s ++ place_point (rev (rstrip_zeros (rev ds))) decpt
  end.

(** ** Python values of a customer row *)

Inductive pyval :=
| PNone
| PBool (b : bool)
| PInt (z : Z)
| PFloat (x : float)
| PStr (s : string).

Definition float_one : float := S754_finite false 4503599627370496 (-52).
Definition float_half : float := S754_finite false 4503599627370496 (-53).

(** [bool(v)] *)
Definition truthy (v : pyval) : bool :=
  match v with
  | PNone => false
  | PBool b => b
  | PInt z => negb (z =? 0)
  | PFloat (S754_zero _) => false
  | PFloat _ => true
  | PStr s => str_nonempty s
  end.

(** [float(v)] *)
Definition py_float (v : pyval) : result float :=
  match v with
  | PNone => Raise TypeError
  | PBool b => Ok (if b then float_one else S754_zero false)
  | PInt z => float_of_Z z
  | PFloat x => Ok x
  | PStr s => float_of_str s
  end.

(** [int(v)] *)
Definition py_int (v : pyval) : result Z :=
  match v with
  | PNone => Raise TypeError
  | PBool b => Ok (if b then 1 else 0)
  | PInt z => Ok z
  | PFloat x => int_of_float x
  | PStr s => int_of_str s
  end.

(** [str(v)], which is also what a replacement field and an f-string
    show of [v]. *)
Definition py_str (v : pyval) : result string :=
  match v with
  | PNone => Ok "None"
  | PBool b => Ok (if b then "True" else "False")
  | PInt z => str_of_Z z
  | PFloat x => Ok (repr_float x)
  | PStr s => Ok s
  end.

(** [v == 0] *)
Definition eq_zero (v : pyval) : bool :=
  match v with
  | PBool b => negb b
  | PInt z => z =? 0
  | PFloat (S754_zero _) => true
  | _ => false
  end.

(** ** The system prompt template *)

(** The named replacement fields of the template. *)
Inductive field :=
| customer_name
| loan_amount
| monthly_debt
| half_monthly_debt
| credit_score_text
| unknown_customer_placeholder.

(** A template is literal text ([T]), double quotes ([Q]), line ends
    ([NL]) and replacement fields ([F], written [{name}] in Python). *)
Inductive piece :=
| T (s : string)
| Q
| NL
| F (f : field).

Definition LLM_SYSTEM_PROMPT_TEMPLATE : list piece :=
  [
    NL;
    T "You are LoanMate, an advanced AI collections agent for Global Finance ";
      T "Solutions. Your primary objective is to discuss outstanding loan ";
      T "payments with customers in a way that is **exceptionally human-like, ";
      T "deeply empathetic, and highly understanding.** Your goal is not just ";
      T "to collect payments, but to do so while preserving and even enhancing ";
      T "the customer's relationship with Global Finance Solutions."; NL;
    NL;
    T "**Your Core Persona & Emotional Intelligence:**"; NL;
    T "*   **Empathetic Listener:** Actively listen to the customer. Your ";
      T "first priority is to make them feel heard and understood, especially ";
      T "if they are distressed."; NL;
    T "*   **Warm & Approachable:** Your tone should be consistently warm, ";
      T "patient, and reassuring. Avoid sounding robotic, scripted, or "; T "judgmental."; NL;
    T "*   **Emotionally Astute:** Detect and mirror the customer's ";
      T "emotional state appropriately. If they are sad, be compassionate. If ";
      T "they are frustrated, be patient and understanding. If they are ";
      T "cooperative, be appreciative."; NL;
    T "*   **Natural Conversationalist:** Use natural language, vary your ";
      T "sentence structure, use conversational fillers if appropriate (e.g., "; Q; T "I see,"; Q;
      T " "; Q; T "Hmm, I understand,"; Q; T " "; Q; T "Well,"; Q;
      T "), and avoid repetitive phrases. Your responses should flow like a ";
      T "real human conversation."; NL;
    NL;
    T "**Understanding and Responding to Situations:**"; NL;
    T "*   **Beyond Keywords:** Do not rely solely on keywords. Understand ";
      T "the *intent* and *context* behind the customer's words. If a customer "; T "says, "; Q;
      T "Things have been really tough since the factory closed,"; Q;
      T " understand this implies job loss and financial hardship without them ";
      T "needing to say "; Q; T "I lost my job."; Q; NL;
    T "*   **Handling Sensitive Information:**"; NL;
    T "    *   If a customer mentions health issues (their own or a family "; T "member's: "; Q;
      T "hospital,"; Q; T " "; Q; T "sick,"; Q; T " "; Q; T "doctor,"; Q; T " "; Q; T "surgery,"; Q;
      T " "; Q; T "medical bills"; Q; T "), accidents ("; Q; T "car crash,"; Q; T " "; Q;
      T "injured"; Q; T "), death or bereavement ("; Q; T "passed away,"; Q; T " "; Q; T "funeral,";
      Q; T " "; Q; T "condolences"; Q; T "), job loss ("; Q; T "laid off,"; Q; T " "; Q;
      T "unemployed,"; Q; T " "; Q; T "no income"; Q; T "), or general severe hardship ("; Q;
      T "crisis,"; Q; T " "; Q; T "struggling badly,"; Q; T " "; Q; T "difficult times"; Q; T "):";
      NL;
    T "        1.  **Prioritize Empathy:** Immediately offer genuine, ";
      T "heartfelt sympathy and acknowledge the difficulty of their situation. "; T "For example: ";
      Q; T "Oh, I am so incredibly sorry to hear you're going through that. That ";
      T "sounds exceptionally challenging, and my thoughts are with you."; Q; T " or "; Q;
      T "Please accept my deepest condolences. That's a terrible loss, and I ";
      T "can only imagine how difficult this time must be."; Q; NL;
    T "        2.  **Gentle Transition:** After expressing empathy, if ";
      T "appropriate and after a slight pause or acknowledgment from them, ";
      T "gently and respectfully inquire if they are in a position to discuss ";
      T "the loan, or if there's anything related to the loan account that ";
      T "might ease their burden slightly (like exploring options if company "; T "policy allows).";
      NL;
    T "*   **Payment Discussions:**"; NL;
    T "    *   **Customer Context (Provided to you):**"; NL;
    T "        *   Customer Name: "; F customer_name; NL;
    T "        *   Current Loan Amount: "; F loan_amount; NL;
    T "        *   Monthly EMI: "; F monthly_debt; NL;
    T "        *   Credit Score: "; F credit_score_text; NL;
    T "    *   **Initial Interaction Strategy (VERY IMPORTANT - Follow this ";
      T "based on 'Customer Name' above):**"; NL;
    T "        *   If "; Q; T "Customer Name"; Q; T " is "; Q; F unknown_customer_placeholder; Q;
      T ": Your *first and only goal* for your initial response is to politely ";
      T "ask for their full name to look up their account. Example: "; Q;
      T "Hello, this is LoanMate from Global Finance Solutions. To start, ";
      T "could you please tell me your full name so I can bring up your "; T "account details?"; Q;
      T " Do NOT proceed with any loan details until you have a name. Await "; T "their response.";
      NL;
    T "        *   If a specific "; Q; T "Customer Name"; Q; T " (e.g., "; Q; T "John Doe"; Q;
      T ") is provided: Your initial response should be to greet them by name, ";
      T "confirm if it's a good time to talk, and then state the purpose: "; Q; T "Hello ";
      F customer_name; T ", this is LoanMate from Global Finance Solutions. Is this a good time ";
      T "to talk? I'm calling regarding your loan account. The current ";
      T "outstanding amount is "; F loan_amount; T ", with a monthly payment of "; F monthly_debt;
      T " which is now due. I was hoping we could discuss that today."; Q; NL;
    T "    *   **Inability to Pay Full Amount:** If they cannot pay the full ";
      T "amount, explore the reasons with understanding. "; Q;
      T "I understand that making the full payment might be difficult right "; T "now."; Q; NL;
    T "    *   **Offering Partial Payment (50%):** If full payment isn't ";
      T "possible, and after understanding their situation (especially if ";
      T "sensitive), gently suggest a partial payment: "; Q;
      T "Given what you've shared, I completely understand that the full ";
      T "amount might be a stretch. To help keep the account in good standing ";
      T "and avoid further issues, would it be at all possible to manage at ";
      T "least 50% of that, which would be "; F half_monthly_debt; T ", for now?"; Q; NL;
    T "    *   **Explaining Consequences:** If they refuse any payment or ";
      T "ask for extensions beyond policy, you must explain the consequences ";
      T "(late fees, credit score impact, further collection). Do this *gently ";
      T "but clearly*, framing it as information to help them avoid negative ";
      T "outcomes, not as a threat. "; Q;
      T "I want to be transparent about how this works. If the payment isn't ";
      T "made, it can unfortunately lead to things like late fees and could ";
      T "impact your credit score (currently "; F credit_score_text;
      T "), which we certainly want to help you avoid."; Q; NL;
    T "    *   **Negotiation (if allowed by policy):** Be open to what the ";
      T "customer *can* do. "; Q;
      T "What amount do you feel you could manage today, even if it's not the ";
      T "full 50%? Any payment helps."; Q; NL;
    T "*   **Call Closure:**"; NL;
    T "    * If payment agreed (full or partial): Thank them, provide ";
      T "generic payment instructions (e.g., "; Q;
      T "You can make the payment through our online portal or by calling our "; T "payment line.";
      Q; T "), and end politely."; NL;
    T "    * If no consent to talk or final refusal: Politely acknowledge ";
      T "and end the call. For refusal, reiterate awareness of consequences if "; T "appropriate.";
      NL;
    T "*   **Maintaining Control & Objective:** While being empathetic, ";
      T "remember the call's purpose. Gently guide the conversation back to ";
      T "the payment if it strays too far for too long, but only after ";
      T "adequately addressing the customer's immediate emotional needs or "; T "concerns."; NL;
    T "*   **Flexibility:** Be prepared for unexpected questions or ";
      T "statements. Don't get flustered. Use your understanding to respond ";
      T "appropriately. If you don't have an answer, say you'll find out (if ";
      T "that's an option) or politely state the limits of your knowledge."; NL;
    NL;
    T "**Output:**"; NL;
    T "*   Your response should be plain text, suitable for a Text-to-Speech "; T "(TTS) engine.";
      NL;
    T "*   Do NOT include non-verbal cues like "; Q; T "[gentle tone]"; Q;
      T " in your text response. The TTS engine should handle expressiveness ";
      T "based on its capabilities and the inherent emotion in the text."; NL;
    T "*   Keep responses concise and conversational."; NL
  ].

Definition UNKNOWN_CUSTOMER_PLACEHOLDER : string :=
  "the customer (name not yet identified)".

Definition render_piece (args : field -> string) (p : piece) : string :=
  match p with
  | T s => s
  | Q => dq
  | NL => nl
  | F f => args f
  end.

(** [template.format(...)] with the arguments given by name *)
Fixpoint format (template : list piece) (args : field -> string) : string :=
  match template with
  | [] => EmptyString
  | p :: rest => render_piece args p ++ format rest args
  end.

(** ** Customer rows and the directory *)

(** A row of the customer table as [to_dict()] returns it. *)
Abbreviation row := (gmap string pyval).

(** [d.get(key, default)] *)
Definition dict_get (d : row) (key : string) (dflt : pyval) : pyval :=
  default dflt (d !! key).

(** [bool(customer_info)]: [None] and the empty dict are false. *)
Definition info_truthy (info : option row) : bool :=
  match info with
  | Some d => negb (Nat.eqb (size d) 0)
  | None => false
  end.

Definition name_matches (name : string) (r : row) : bool :=
  match r !! "Random_Name" with
  | Some (PStr s) => String.eqb (lower (strip s)) (lower (strip name))
  | _ => false
  end.

(** [get_customer_details(name)] over the loaded table [customer_df]. *)
Definition get_customer_details (customer_df : list row) (name : string) : option row :=
  match customer_df with
  | [] => None
  | _ => find (name_matches name) customer_df
  end.

(** ** The prompt composer *)

(** [format_currency(amount)]: [ValueError] and [TypeError] of [float] are
    caught, any other exception propagates. *)
Definition format_currency (amount : pyval) : result string :=
  match py_float amount with
  | Ok x => Ok ("$" ++ format_f2 x)
  | Raise ValueError | Raise TypeError =>
      if truthy amount then py_str amount else Ok "N/A"
  | Raise e => Raise e
  end.

Definition not_yet : string := "N/A (details not yet available)".

Definition prompt_args (name loan emi half_emi score : string) (f : field) : string :=
  match f with
  | customer_name => name
  | loan_amount => loan
  | monthly_debt => emi
  | half_monthly_debt => half_emi
  | credit_score_text => score
  | unknown_customer_placeholder => UNKNOWN_CUSTOMER_PLACEHOLDER
  end.

(** [generate_system_prompt(customer_info_dict)] *)
Definition generate_system_prompt (customer_info_dict : option row) : result string :=
  match customer_info_dict with
  | Some d =>
      if info_truthy customer_info_dict then
        let name := dict_get d "Random_Name" (PStr UNKNOWN_CUSTOMER_PLACEHOLDER) in
        let loan_val := dict_get d "Current Loan Amount" (PInt 0) in
        let emi_val := dict_get d "Monthly Debt" (PInt 0) in
        rbind (format_currency loan_val) (fun loan =>
        rbind (format_currency emi_val) (fun emi =>
        rbind (if truthy emi_val
               then rbind (py_float emi_val) (fun x =>
                      Ok (PFloat (SFmul prec emax x float_half)))
               else Ok (PInt 0)) (fun half =>
        rbind (format_currency half) (fun half_emi =>
        let score_val := dict_get d "Credit Score" (PInt 0) in
        rbind (if negb (truthy score_val) || eq_zero score_val
               then Ok "N/A"
               else rbind (py_int score_val) str_of_Z) (fun score =>
        rbind (py_str name) (fun customer_name =>
        Ok (format LLM_SYSTEM_PROMPT_TEMPLATE
              (prompt_args customer_name loan emi half_emi score))))))))
      else
        Ok (format LLM_SYSTEM_PROMPT_TEMPLATE
              (prompt_args UNKNOWN_CUSTOMER_PLACEHOLDER not_yet not_yet not_yet not_yet))
  | None =>
      Ok (format LLM_SYSTEM_PROMPT_TEMPLATE
            (prompt_args UNKNOWN_CUSTOMER_PLACEHOLDER not_yet not_yet not_yet not_yet))
  end.

(** The prompt composed for a customer who is not known yet. *)
Definition unknown_prompt : string :=
  format LLM_SYSTEM_PROMPT_TEMPLATE
    (prompt_args UNKNOWN_CUSTOMER_PLACEHOLDER not_yet not_yet not_yet not_yet).

(** ** The call session *)

Inductive role := user | model.

(** An entry [{"role": r, "parts": [{"text": t}]}] of the history. *)
Record utterance := { entry_role : role; entry_text : string }.

(** The process-wide [active_call_data]. *)
Record session := {
  customer_info : option row;
  conversation_history : list utterance;
  asked_for_name_in_last_turn : bool
}.

Definition active_call_data : session :=
  {| customer_info := None;
     conversation_history := [];
     asked_for_name_in_last_turn := false |}.

(** What is fixed when the module is loaded. *)
Record config := {
  customer_df : list row;
  gemini_configured : bool
}.

(** *** The external services, as a request sees them *)

Record prompt_feedback := {
  block_reason_message : string;
  block_reason : string
}.

(** A response of the language model: the text of each part that has one,
    the [text] attribute (absent: [None]) and the prompt feedback. *)
Record gemini_response := {
  response_parts : list (option string);
  response_text : option string;
  response_feedback : option prompt_feedback
}.

Inductive gemini_reply :=
| GeminiRaises
| GeminiResponse (r : gemini_response).

Inductive gemini_contents :=
| History (h : list utterance)
| Trigger (s : string).

Inductive stt_reply :=
| SttRaises
| SttTranscript (transcript : string).

(** One call of the speech service: it raises, answers without a stream,
    with an empty stream, or with audio. *)
Inductive speak_reply :=
| SpeakRaises
| SpeakNoStream
| SpeakEmpty
| SpeakAudio.

(** An audio buffer, identified by the text it speaks. *)
Inductive audio := Speech (spoken : string).

(** The services during one request.  [stream_memory n] answers the
    [n]-th synthesis call of the request. *)
Record services := {
  transcribe_file : string -> stt_reply;
  generate_content : string -> gemini_contents -> gemini_reply;
  stream_memory : nat -> speak_reply
}.

(** *** Handlers: state and exceptions *)

Record world := {
  data : session;
  speak_calls : nat
}.

(** A computation reads and writes the world and returns or raises;
    what it wrote stays written when it raises. *)
Definition M (A : Type) : Type := world -> result A * world.

Definition ret {A} (a : A) : M A := fun w => (Ok a, w).
Definition raise {A} (e : exn) : M A := fun w => (Raise e, w).

Definition bind {A B} (m : M A) (k : A -> M B) : M B :=
  fun w =>
    match m w with
    | (Ok a, w') => k a w'
    | (Raise e, w') => (Raise e, w')
    end.

(** [try: m  except Exception: h] *)
Definition try_except {A} (m : M A) (h : exn -> M A) : M A :=
  fun w =>
    match m w with
    | (Ok a, w') => (Ok a, w')
    | (Raise e, w') => h e w'
    end.

Definition lift {A} (r : result A) : M A := fun w => (r, w).

Definition get_data : M session := fun w => (Ok (data w), w).

Definition modify (f : session -> session) : M unit :=
  fun w => (Ok tt, {| data := f (data w); speak_calls := speak_calls w |}).

Notation "x <- m ;; k" := (bind m (fun x => k))
  (at level 20, m at level 99, k at level 200, only parsing).
Notation "'do' m ;; k" := (bind m (fun _ => k))
  (at level 20, m at level 99, k at level 200, only parsing).

Definition set_customer_info (v : option row) (s : session) : session :=
  {| customer_info := v;
     conversation_history := conversation_history s;
     asked_for_name_in_last_turn := asked_for_name_in_last_turn s |}.

Definition set_conversation_history (h : list utterance) (s : session) : session :=
  {| customer_info := customer_info s;
     conversation_history := h;
     asked_for_name_in_last_turn := asked_for_name_in_last_turn s |}.

Definition set_asked_for_name (b : bool) (s : session) : session :=
  {| customer_info := customer_info s;
     conversation_history := conversation_history s;
     asked_for_name_in_last_turn := b |}.

(** [conversation_history.append(entry)] *)
Definition append_entry (r : role) (t : string) (s : session) : session :=
  set_conversation_history
    (conversation_history s ++ [{| entry_role := r; entry_text := t |}]) s.

(** [l[-n:]] for a positive [n] *)
Definition last_entries {A} (n : nat) (l : list A) : list A :=
  skipn (length l - n) l.

(** *** The dialogue engine *)

Definition mock_after_name : string :=
  "Thank you. My name is Mock User. What is this call regarding?".

Definition mock_greeting (name : string) : string :=
  "Hello " ++ name ++ ", this is LoanMate from Global Finance Solutions. "
  ++ "Your mock loan of $1000 is due. Can you pay?".

Definition mock_ask_name : string :=
  "Hello, this is LoanMate from Global Finance Solutions. Could you please "
  ++ "tell me your full name so I can bring up your account details?".

Definition trigger_prompt : string :=
  "Please begin the conversation according to your system instructions.".

Definition at_a_loss : string :=
  "I seem to be at a loss for words. Could you try that again?".

Definition trouble_connecting : string :=
  "I'm sorry, I'm having trouble connecting to my main system right now. "
  ++ "Please try again in a moment.".

Definition filtered (block_reason_msg : string) : string :=
  "My apologies, my response was prevented due to a content filter."
  ++ block_reason_msg
  ++ " Could we try rephrasing or discussing a different aspect?".

Definition block_reason_text (fb : option prompt_feedback) : string :=
  match fb with
  | Some f =>
      if str_nonempty (block_reason_message f)
      then " Reason: " ++ block_reason_message f ++ "."
      else if str_nonempty (block_reason f)
      then " Reason code: " ++ block_reason f ++ "."
      else EmptyString
  | None => EmptyString
  end.

Definition join_parts (parts : list (option string)) : string :=
  fold_right (fun p acc => match p with Some t => t ++ acc | None => acc end)
    EmptyString parts.

(** The live branch of [call_gemini_model]; every exception of the
    backend is caught inside. *)
Definition live_reply (sv : services) (system_prompt_text : string)
    (conversation_history_for_llm : list utterance) : string :=
  let contents :=
    match conversation_history_for_llm with
    | [] => Trigger trigger_prompt
    | h => History h
    end in
  match generate_content sv system_prompt_text contents with
  | GeminiRaises => trouble_connecting
  | GeminiResponse r =>
      let answered (t : string) :=
        if str_nonempty (strip t) then strip t else at_a_loss in
      match response_parts r, response_text r with
      | _ :: _, _ => answered (join_parts (response_parts r))
      | [], Some t =>
          if str_nonempty t then answered t
          else filtered (block_reason_text (response_feedback r))
      | [], None => filtered (block_reason_text (response_feedback r))
      end
  end.

(** [call_gemini_model(system_prompt_text, conversation_history_for_llm)] *)
Definition call_gemini_model (cfg : config) (sv : services)
    (system_prompt_text : string) (conversation_history_for_llm : list utterance)
    : M string :=
  if negb (gemini_configured cfg) then
    (s <- get_data ;;
     if asked_for_name_in_last_turn s && negb (info_truthy (customer_info s))
     then ret mock_after_name
     else
       match customer_info s with
       | Some d =>
           if info_truthy (customer_info s) then
             match d !! "Random_Name" with
             | Some v => name <- lift (py_str v) ;; ret (mock_greeting name)
             | None => raise KeyError
             end
           else ret mock_ask_name
       | None => ret mock_ask_name
       end)
  else ret (live_reply sv system_prompt_text conversation_history_for_llm).

(** *** The speech adapter *)

Definition internal_error_text : string :=
  "I encountered an internal error and cannot respond right now.".

Definition fallback_text : string :=
  "I'm having trouble speaking at the moment. Please try again later.".

(** One call of [dg_client.speak.rest.v("1").stream_memory] and the checks
    made on its answer. *)
Definition speak (sv : services) (t : string) : M audio :=
  fun w =>
    let w' := {| data := data w; speak_calls := S (speak_calls w) |} in
    match stream_memory sv (speak_calls w) with
    | SpeakAudio => (Ok (Speech t), w')
    | SpeakEmpty => (Raise ValueError, w')
    | SpeakNoStream => (Raise ValueError, w')
    | SpeakRaises => (Raise ServiceError, w')
    end.

(** [text_to_speech(text)] *)
Definition text_to_speech (sv : services) (t : string) : M audio :=
  let t := if str_nonempty t then t else internal_error_text in
  try_except (speak sv t) (fun _ => speak sv fallback_text).

(** *** The routes *)

Inductive response :=
| Page
| SendFile (a : audio) (status : nat)
| Json (error : string) (status : nat).

Definition when (b : bool) (m : M unit) : M unit := if b then m else ret tt.

(** [/]: the call state is reset. *)
Definition index : M response :=
  do modify (set_customer_info None) ;;
  do modify (set_conversation_history []) ;;
  do modify (set_asked_for_name false) ;;
  ret Page.

(** [if customer_details: active_call_data["customer_info"] = customer_details] *)
Definition attach_details (customer_details : option row) : M unit :=
  when (info_truthy customer_details) (modify (set_customer_info customer_details)).

(** The body of an [/initiate_call] request, as the handler reads it:
    nothing that [request.get_json()] accepts, which aborts the request with
    an HTTP error; JSON that is not an object ([null], a list, a number,
    text), which has no [get]; an object whose [customerName] is not text
    ([null], a number, a list, an object), which has no [strip]; or an
    object with its textual [customerName], if any. *)
Inductive call_body :=
| BodyNoJson
| BodyNotObject
| BodyNameNotText
| BodyObject (customerName : option string).

(** [data = request.get_json()] and
    [customer_name_input = data.get('customerName', '').strip()] *)
Definition read_customer_name (body : call_body) : result string :=
  match body with
  | BodyNoJson => Raise HTTPException
  | BodyNotObject => Raise AttributeError
  | BodyNameNotText => Raise AttributeError
  | BodyObject customerName => Ok (strip (default EmptyString customerName))
  end.

(** [/initiate_call].  An exception that leaves the handler is the result
    [Raise]; the two lines that read the body come before the session is
    reset. *)
Definition initiate_call_route (cfg : config) (sv : services)
    (body : call_body) : M response :=
  customer_name_input <- lift (read_customer_name body) ;;
  do modify (set_conversation_history []) ;;
  do modify (set_customer_info None) ;;
  do modify (set_asked_for_name false) ;;
  do when (str_nonempty customer_name_input)
       (attach_details (get_customer_details (customer_df cfg) customer_name_input)) ;;
  s <- get_data ;;
  system_prompt <- lift (generate_system_prompt (customer_info s)) ;;
  bot_response_text <- call_gemini_model cfg sv system_prompt (conversation_history s) ;;
  s <- get_data ;;
  do when (negb (info_truthy (customer_info s))
           && py_in UNKNOWN_CUSTOMER_PLACEHOLDER system_prompt)
       (modify (set_asked_for_name true)) ;;
  do modify (append_entry model bot_response_text) ;;
  try_except
    (audio_bytes <- text_to_speech sv bot_response_text ;;
     ret (SendFile audio_bytes 200))
    (fun _ => ret (Json "TTS Error" 500)).

Definition didnt_catch : string :=
  "I'm sorry, I didn't catch that. Could you please repeat?".

Definition unexpected_problem : string :=
  "I've encountered an unexpected problem. Please try your request again later.".

Definition MAX_HISTORY_TURNS : nat := 10.

(** The name-request heuristic applied to the reply of the model. *)
Definition asks_for_name (bot_response_text : string) : bool :=
  py_in "name" (lower bot_response_text)
  && (py_in "what is your" (lower bot_response_text)
      || py_in "could you tell me" (lower bot_response_text)).

(** The speech-to-text call and the extraction of the transcript. *)
Definition transcribe (sv : services) (buffer_data : string) : M string :=
  match transcribe_file sv buffer_data with
  | SttRaises => raise ServiceError
  | SttTranscript t => ret t
  end.

(** The customer utterance is appended; when a name is pending, the
    transcript is looked up as a name and the flag is cleared. *)
Definition record_customer_utterance (cfg : config) (transcript : string) : M unit :=
  do modify (append_entry user transcript) ;;
  s <- get_data ;;
  when (asked_for_name_in_last_turn s && negb (info_truthy (customer_info s)))
    (do attach_details (get_customer_details (customer_df cfg) (strip transcript)) ;;
     modify (set_asked_for_name false)).

(** The flag is set again when the reply asks for a name, the reply is
    appended and the history is trimmed. *)
Definition record_agent_reply (system_prompt bot_response_text : string) : M unit :=
  s <- get_data ;;
  do when (negb (info_truthy (customer_info s))
           && py_in UNKNOWN_CUSTOMER_PLACEHOLDER system_prompt)
       (when (asks_for_name bot_response_text) (modify (set_asked_for_name true))) ;;
  do modify (append_entry model bot_response_text) ;;
  s <- get_data ;;
  when (MAX_HISTORY_TURNS * 2 <? length (conversation_history s))%nat
    (modify (set_conversation_history
               (last_entries (MAX_HISTORY_TURNS * 2) (conversation_history s)))).

(** The body of the [try] block of [/process_audio]. *)
Definition process_audio_body (cfg : config) (sv : services)
    (buffer_data : string) : M response :=
  transcript <- transcribe sv buffer_data ;;
  if negb (str_nonempty transcript) then
    audio_bytes <- text_to_speech sv didnt_catch ;;
    ret (SendFile audio_bytes 200)
  else
    do record_customer_utterance cfg transcript ;;
    s <- get_data ;;
    system_prompt <- lift (generate_system_prompt (customer_info s)) ;;
    bot_response_text <- call_gemini_model cfg sv system_prompt (conversation_history s) ;;
    do record_agent_reply system_prompt bot_response_text ;;
    audio_bytes <- text_to_speech sv bot_response_text ;;
    ret (SendFile audio_bytes 200).

(** [send_file(..., mimetype="audio/mpeg", status=500)]: [send_file] of
    Flask has no parameter [status], so the call raises [TypeError] before
    any answer is built. *)
Definition send_file_with_status (a : audio) (status : nat) : M response :=
  raise TypeError.

(** [/process_audio], with the uploaded [audio_data] when the request has
    one.  In the error handler the apology is synthesised, but the call that
    would send it raises, and the inner handler answers with the JSON
    error. *)
Definition process_audio_route (cfg : config) (sv : services)
    (audio_data : option string) : M response :=
  match audio_data with
  | None => ret (Json "No audio data" 400)
  | Some buffer_data =>
      try_except (process_audio_body cfg sv buffer_data)
        (fun _ =>
           try_except
             (error_audio_bytes <- text_to_speech sv unexpected_problem ;;
              send_file_with_status error_audio_bytes 500)
             (fun _ => ret (Json "Critical System Error" 500)))
  end.

(** A request handled from the session [s]: the answer and the session
    left behind. *)
Definition handle {A} (m : M A) (s : session) : result A * session :=
  let (r, w) := m {| data := s; speak_calls := 0 |} in (r, data w).

Definition session_after {A} (m : M A) (s : session) : session := snd (handle m s).
Definition answer_of {A} (m : M A) (s : session) : result A := fst (handle m s).

(** The sessions the process can be in: the state at load time and every
    state left by a request, whatever the services answer. *)
Inductive reachable (cfg : config) : session -> Prop :=
| reach_load : reachable cfg active_call_data
| reach_index s :
    reachable cfg s -> reachable cfg (session_after index s)
| reach_initiate_call s sv body :
    reachable cfg s ->
    reachable cfg (session_after (initiate_call_route cfg sv body) s)
| reach_process_audio s sv audio_data :
    reachable cfg s ->
    reachable cfg (session_after (process_audio_route cfg sv audio_data) s).

(** ** The steps of a turn, as functions of the session *)

Definition attach (customer_details : option row) (s : session) : session :=
  if info_truthy customer_details then set_customer_info customer_details s else s.

(** The session once the customer utterance is appended and the pending
    name, if any, has been looked up. *)
Definition after_customer_utterance (cfg : config) (transcript : string)
    (s : session) : session :=
  let s1 := append_entry user transcript s in
  if asked_for_name_in_last_turn s1 && negb (info_truthy (customer_info s1))
  then set_asked_for_name false
         (attach (get_customer_details (customer_df cfg) (strip transcript)) s1)
  else s1.

Definition trim (s : session) : session :=
  if (MAX_HISTORY_TURNS * 2 <? length (conversation_history s))%nat
  then set_conversation_history
         (last_entries (MAX_HISTORY_TURNS * 2) (conversation_history s)) s
  else s.

(** The session once the reply of the model is recorded. *)
Definition after_agent_reply (system_prompt bot_response_text : string)
    (s : session) : session :=
  let s2 :=
    if negb (info_truthy (customer_info s))
       && py_in UNKNOWN_CUSTOMER_PLACEHOLDER system_prompt
       && asks_for_name bot_response_text
    then set_asked_for_name true s else s in
  trim (append_entry model bot_response_text s2).

(** No two neighbours of the history have the same role. *)
Definition same_role (a b : utterance) : bool :=
  match entry_role a, entry_role b with
  | user, user | model, model => true
  | _, _ => false
  end.

Fixpoint alternating (h : list utterance) : bool :=
  match h with
  | a :: ((b :: _) as rest) => negb (same_role a b) && alternating rest
  | _ => true
  end.

(** An error answer: a status other than 200, or an exception that left
    the handler. *)
Definition ends_in_error (r : result response) : bool :=
  match r with
  | Ok (SendFile _ 200) | Ok Page => false
  | _ => true
  end.

(** The identity flag is set only while no customer is attached, and an
    attached customer is a row of the directory. *)
Definition flag_consistent (s : session) : Prop :=
  asked_for_name_in_last_turn s = true -> customer_info s = None.

Definition named_row (r : row) : Prop :=
  exists name, r !! "Random_Name" = Some (PStr name).

Definition info_from_directory (s : session) : Prop :=
  match customer_info s with
  | Some d => named_row d
  | None => True
  end.

(** The template mentions the field [{unknown_customer_placeholder}]. *)
Fixpoint has_placeholder (template : list piece) : bool :=
  match template with
  | [] => false
  | F unknown_customer_placeholder :: _ => true
  | _ :: rest => has_placeholder rest
  end.

(** The reply of the dialogue engine in the session [s]. *)
Definition reply_in (cfg : config) (sv : services) (system_prompt : string)
    (s : session) : result string :=
  fst (call_gemini_model cfg sv system_prompt (conversation_history s)
         {| data := s; speak_calls := 0 |}).

(** The session a request with the transcript [t] leaves behind. *)
Definition session_after_turn (cfg : config) (sv : services) (t : string)
    (s : session) : session :=
  let s1 := after_customer_utterance cfg t s in
  match generate_system_prompt (customer_info s1) with
  | Raise _ => s1
  | Ok system_prompt =>
      match reply_in cfg sv system_prompt s1 with
      | Raise _ => s1
      | Ok bot_response_text => after_agent_reply system_prompt bot_response_text s1
      end
  end.

(** The session a call start leaves behind. *)
Definition session_after_initiate (cfg : config) (sv : services)
    (customerName : option string) : session :=
  let customer_name_input := strip (default EmptyString customerName) in
  let s0 :=
    if str_nonempty customer_name_input
    then attach (get_customer_details (customer_df cfg) customer_name_input)
           active_call_data
    else active_call_data in
  match generate_system_prompt (customer_info s0) with
  | Raise _ => s0
  | Ok system_prompt =>
      match reply_in cfg sv system_prompt s0 with
      | Raise _ => s0
      | Ok bot_response_text =>
          append_entry model bot_response_text
            (if negb (info_truthy (customer_info s0))
                && py_in UNKNOWN_CUSTOMER_PLACEHOLDER system_prompt
             then set_asked_for_name true s0 else s0)
      end
  end.

(** What holds of every session the process can be in. *)
Definition session_invariant (s : session) : Prop :=
  flag_consistent s /\ info_from_directory s.

(** *** Amounts *)



(** *** Sample data *)

Definition john_doe : row :=
  <["Random_Name" := PStr "John Doe"]>
    (<["Credit Score" := PInt 700]>
       (<["Monthly Debt" := PInt 500]>
          (<["Current Loan Amount" := PInt 10000]> ∅))).

Definition one_customer : config :=
  {| customer_df := [john_doe]; gemini_configured := false |}.

(** Services that hear the upload as its own transcript, with a given
    speech service and no language model. *)
Definition echo_services (speech : nat -> speak_reply) : services :=
  {| transcribe_file := fun buffer_data => SttTranscript buffer_data;
     generate_content := fun _ _ => GeminiRaises;
     stream_memory := speech |}.

Definition speech_up (n : nat) : speak_reply := SpeakAudio.
Definition speech_down (n : nat) : speak_reply := SpeakRaises.
Definition speech_first_fails (n : nat) : speak_reply :=
  match n with O => SpeakRaises | _ => SpeakAudio end.

Definition john_doe_prompt : string :=
  match generate_system_prompt (Some john_doe) with
  | Ok p => p
  | Raise _ => EmptyString
  end.

(** A session that waits for a name: the call was started without one. *)
Definition awaiting_name : session :=
  session_after
    (initiate_call_route one_customer (echo_services speech_up) (BodyObject None))
    active_call_data.

(** A directory whose credit score column holds text: the loader fills
    the gaps of that column but does not convert it to numbers. *)
Definition ann_lee : row :=
  <["Random_Name" := PStr "Ann Lee"]>
    (<["Credit Score" := PStr "unknown"]>
       (<["Monthly Debt" := PInt 300]>
          (<["Current Loan Amount" := PInt 5000]> ∅))).

Definition text_scores : config :=
  {| customer_df := [ann_lee]; gemini_configured := false |}.

(** The session after a call was started for Ann Lee. *)
Definition ann_attached : session :=
  session_after
    (initiate_call_route text_scores (echo_services speech_up) (BodyObject (Some "Ann Lee")))
    active_call_data.

(** *** Notions of the further properties *)

(** What [lstrip] leaves starts with a character that is not white space. *)
Definition starts_clean (l : list ascii) : bool :=
  match l with
  | [] => true
  | c :: _ => negb (is_space c)
  end.

(** The name of a row, trimmed and in lower case, is [key]. *)
Definition row_named (key : string) (r : row) : Prop :=
  exists s, r !! "Random_Name" = Some (PStr s) /\ lower (strip s) = key.

(** An amount [float()] accepts: [None] apart, anything but text and an
    [int] beyond the range of [float]. *)
Definition numeric_amount (v : pyval) : bool :=
  match v with
  | PInt z => is_ok (float_of_Z z)
  | PStr _ => false
  | _ => true
  end.

(** A value [str()] prints: anything but an [int] beyond the limit on
    digits. *)
Definition prints (v : pyval) : bool :=
  match v with
  | PInt z => within_int_max_str_digits z
  | _ => true
  end.

(** A credit score [int()] accepts and [str()] prints: [None], a [bool], an
    [int] within the limit on digits and a binary64 number other than NaN
    and the infinities; no text. *)
Definition numeric_score (v : pyval) : bool :=
  match v with
  | PStr _ => false
  | PInt z => within_int_max_str_digits z
  | PFloat S754_nan => false
  | PFloat (S754_infinity _) => false
  | PFloat x => valid_binary prec emax x
  | _ => true
  end.

(** [float(emi_val) * 0.5 if emi_val else 0], the amount shown as the half
    payment. *)
Definition half_payment (emi_val : pyval) : result pyval :=
  if truthy emi_val
  then rbind (py_float emi_val) (fun x => Ok (PFloat (SFmul prec emax x float_half)))
  else Ok (PInt 0).

Definition field_eqb (f g : field) : bool :=
  match f, g with
  | customer_name, customer_name
  | loan_amount, loan_amount
  | monthly_debt, monthly_debt
  | half_monthly_debt, half_monthly_debt
  | credit_score_text, credit_score_text
  | unknown_customer_placeholder, unknown_customer_placeholder => true
  | _, _ => false
  end.

(** The template mentions the field [{f}]. *)
Fixpoint has_field (f : field) (template : list piece) : bool :=
  match template with
  | [] => false
  | F g :: rest => field_eqb f g || has_field f rest
  | _ :: rest => has_field f rest
  end.

(** The text shown for the credit score [v]. *)
Definition score_text (v : pyval) : result string :=
  if negb (truthy v) || eq_zero v then Ok "N/A"
  else rbind (py_int v) str_of_Z.

(** The session after the [/process_audio] requests with the uploads
    [uploads], handled one after the other. *)
Definition after_uploads (cfg : config) (sv : services) (uploads : list string)
    (s : session) : session :=
  fold_left (fun s buf => session_after (process_audio_route cfg sv (Some buf)) s)
    uploads s.

(** ** Properties *)

(** Closed goals are settled by evaluation, conjunct by conjunct. *)
Ltac by_evaluation :=
  repeat match goal with |- _ /\ _ => split end; vm_compute; reflexivity.

(** *** Values printed as the interpreter prints them *)

Example format_currency_int : format_currency (PInt 1234567) = Ok "$1,234,567.00".
Proof. by_evaluation. Qed.

Example format_currency_half_even :
  format_currency (PStr "2.675") = Ok "$2.67" /\
  format_currency (PStr "0.125") = Ok "$0.12" /\
  format_currency (PStr " -1e3 ") = Ok "$-1,000.00".
Proof. by_evaluation. Qed.

Example format_currency_degrades :
  format_currency (PStr "n/a") = Ok "n/a" /\
  format_currency (PStr EmptyString) = Ok "N/A" /\
  format_currency PNone = Ok "N/A".
Proof. by_evaluation. Qed.

Example float_of_str_tenth :
  float_of_str "0.1" = Ok (S754_finite false 7205759403792794 (-56)).
Proof. by_evaluation. Qed.

Example repr_float_shortest :
  rbind (float_of_str "0.30000000000000004") (fun x => Ok (repr_float x))
  = Ok "0.30000000000000004" /\
  rbind (float_of_str "1e22") (fun x => Ok (repr_float x)) = Ok "1e+22" /\
  rbind (float_of_str "250") (fun x => Ok (repr_float x)) = Ok "250.0".
Proof. by_evaluation. Qed.

Example int_of_float_truncates :
  rbind (float_of_str "-12.7") int_of_float = Ok (-12) /\
  rbind (float_of_str "nan") int_of_float = Raise ValueError /\
  rbind (float_of_str "inf") int_of_float = Raise OverflowError.
Proof. by_evaluation. Qed.

Example str_int_of_str :
  str_of_Z (-1234567) = Ok "-1234567" /\
  int_of_str " +1_000 " = Ok 1000 /\
  int_of_str "1__0" = Raise ValueError /\
  within_int_max_str_digits (10 ^ 50) = true.
Proof. by_evaluation. Qed.

Example get_customer_details_folds_case :
  get_customer_details [john_doe] "  JOHN doe " = Some john_doe /\
  get_customer_details [john_doe] "Jane Smith" = None /\
  get_customer_details [] "John Doe" = None.
Proof. by_evaluation. Qed.

(** *** Text *)

Lemma starts_with_app (p s : string) : starts_with p (p ++ s) = true.
Proof.
  induction p as [|c p IH]; simpl; [reflexivity|].
  now rewrite Ascii.eqb_refl.
Qed.

Lemma py_in_skip (sub a s : string) : py_in sub s = true -> py_in sub (a ++ s) = true.
Proof.
  intros H. induction a as [|c a IH]; simpl; [exact H|].
  rewrite IH. apply orb_true_r.
Qed.

Lemma py_in_here (sub s : string) : py_in sub (sub ++ s) = true.
Proof.
  destruct sub as [|c sub].
  - destruct s; reflexivity.
  - change (starts_with (String c sub) (String c sub ++ s)
            || py_in (String c sub) (sub ++ s) = true).
    now rewrite starts_with_app.
Qed.

Lemma py_in_middle (sub a b : string) : py_in sub (a ++ sub ++ b) = true.
Proof. apply py_in_skip, py_in_here. Qed.

(** A field of the template shows in the formatted text. *)
Lemma format_has_placeholder (template : list piece) (args : field -> string) :
  has_placeholder template = true ->
  py_in (args unknown_customer_placeholder) (format template args) = true.
Proof.
  induction template as [|p rest IH]; simpl; [discriminate|].
  destruct p as [s| | |f]; try (intros H; apply py_in_skip, IH, H).
  destruct f; try (intros H; apply py_in_skip, IH, H).
  intros _. apply py_in_here.
Qed.

Lemma template_has_placeholder :
  has_placeholder LLM_SYSTEM_PROMPT_TEMPLATE = true.
Proof. vm_compute. reflexivity. Qed.

Lemma rbind_ok {A B} (r : result A) (k : A -> result B) (b : B) :
  rbind r k = Ok b -> exists a, r = Ok a /\ k a = Ok b.
Proof. destruct r as [a|e]; simpl; [eauto | discriminate]. Qed.

(** Whatever the composer returns was formatted from the template. *)
Lemma generate_system_prompt_formatted (info : option row) (p : string) :
  generate_system_prompt info = Ok p ->
  exists name loan emi half_emi score,
    p = format LLM_SYSTEM_PROMPT_TEMPLATE (prompt_args name loan emi half_emi score).
Proof.
  unfold generate_system_prompt. destruct info as [d|].
  - destruct (info_truthy (Some d)).
    + intros H.
      apply rbind_ok in H as (loan & _ & H).
      apply rbind_ok in H as (emi & _ & H).
      apply rbind_ok in H as (half & _ & H).
      apply rbind_ok in H as (half_emi & _ & H).
      apply rbind_ok in H as (score & _ & H).
      apply rbind_ok in H as (name & _ & H).
      injection H as <-. eauto 6.
    + intros H. injection H as <-. eauto 6.
  - intros H. injection H as <-. eauto 6.
Qed.

(** The steps of the composer for a customer that is present. *)
Lemma generate_system_prompt_steps (d : row) (p : string) :
  info_truthy (Some d) = true ->
  generate_system_prompt (Some d) = Ok p ->
  exists name loan emi half half_emi score,
    py_str (dict_get d "Random_Name" (PStr UNKNOWN_CUSTOMER_PLACEHOLDER)) = Ok name /\
    format_currency (dict_get d "Current Loan Amount" (PInt 0)) = Ok loan /\
    format_currency (dict_get d "Monthly Debt" (PInt 0)) = Ok emi /\
    half_payment (dict_get d "Monthly Debt" (PInt 0)) = Ok half /\
    format_currency half = Ok half_emi /\
    score_text (dict_get d "Credit Score" (PInt 0)) = Ok score /\
    p = format LLM_SYSTEM_PROMPT_TEMPLATE (prompt_args name loan emi half_emi score).
Proof.
  intros Hd H. unfold generate_system_prompt in H. rewrite Hd in H.
  apply rbind_ok in H as (loan & Hloan & H).
  apply rbind_ok in H as (emi & Hemi & H).
  apply rbind_ok in H as (half & Hhalf & H).
  apply rbind_ok in H as (half_emi & Hhalf_emi & H).
  apply rbind_ok in H as (score & Hscore & H).
  apply rbind_ok in H as (name & Hname & H).
  injection H as <-.
  exists name, loan, emi, half, half_emi, score.
  split; [exact Hname|]. split; [exact Hloan|]. split; [exact Hemi|].
  split; [exact Hhalf|]. split; [exact Hhalf_emi|]. split; [exact Hscore|].
  reflexivity.
Qed.

Lemma prompt_has_placeholder (name loan emi half_emi score : string) :
  py_in UNKNOWN_CUSTOMER_PLACEHOLDER
    (format LLM_SYSTEM_PROMPT_TEMPLATE (prompt_args name loan emi half_emi score)) = true.
Proof.
  apply (format_has_placeholder LLM_SYSTEM_PROMPT_TEMPLATE
           (prompt_args name loan emi half_emi score)).
  apply template_has_placeholder.
Qed.

(** *** The prompt composer *)

(** Without a customer the composer cannot fail. *)
Lemma compose_unknown (info : option row) :
  info_truthy info = false -> generate_system_prompt info = Ok unknown_prompt.
Proof.
  intros Habsent. unfold generate_system_prompt.
  destruct info as [d|]; [|reflexivity]. now rewrite Habsent.
Qed.

(** Claim C9.  For the absent customer ([None], or a dict that is empty)
    [generate_system_prompt] returns a prompt, and that prompt contains the
    exact text of [UNKNOWN_CUSTOMER_PLACEHOLDER], the constant the routes
    look for when they decide whether a name is pending. *)
Theorem unknown_prompt_contains_placeholder (info : option row) :
  info_truthy info = false ->
  exists p,
    generate_system_prompt info = Ok p /\
    py_in UNKNOWN_CUSTOMER_PLACEHOLDER p = true /\
    p = format LLM_SYSTEM_PROMPT_TEMPLATE
          (prompt_args UNKNOWN_CUSTOMER_PLACEHOLDER not_yet not_yet not_yet not_yet).
Proof.
  intros Habsent. exists unknown_prompt.
  split; [now apply compose_unknown|].
  split; [apply prompt_has_placeholder | reflexivity].
Qed.

Lemma unknown_prompt_contains_placeholder_witness :
  exists p,
    generate_system_prompt None = Ok p /\
    py_in UNKNOWN_CUSTOMER_PLACEHOLDER p = true /\
    p = format LLM_SYSTEM_PROMPT_TEMPLATE
          (prompt_args UNKNOWN_CUSTOMER_PLACEHOLDER not_yet not_yet not_yet not_yet).
Proof. apply (unknown_prompt_contains_placeholder None). reflexivity. Defined.

(** Claim C10.  Every prompt the composer returns, for a resolved customer
    as well, contains the text of [UNKNOWN_CUSTOMER_PLACEHOLDER], because the
    template substitutes it into its instructions whatever the customer is;
    so the guard [not customer_info and UNKNOWN_CUSTOMER_PLACEHOLDER in
    system_prompt] of both routes is decided by [customer_info] alone. *)
Theorem every_prompt_contains_placeholder (info info' : option row) (p : string) :
  generate_system_prompt info = Ok p ->
  py_in UNKNOWN_CUSTOMER_PLACEHOLDER p = true /\
  negb (info_truthy info') && py_in UNKNOWN_CUSTOMER_PLACEHOLDER p
  = negb (info_truthy info').
Proof.
  intros H.
  apply generate_system_prompt_formatted in H as (name & loan & emi & half & score & ->).
  rewrite prompt_has_placeholder. split; [reflexivity | apply andb_true_r].
Qed.


Lemma every_prompt_contains_placeholder_witness :
  py_in UNKNOWN_CUSTOMER_PLACEHOLDER john_doe_prompt = true /\
  negb (info_truthy (Some john_doe)) && py_in UNKNOWN_CUSTOMER_PLACEHOLDER john_doe_prompt
  = negb (info_truthy (Some john_doe)).
Proof.
  apply (every_prompt_contains_placeholder (Some john_doe) (Some john_doe) john_doe_prompt).
  vm_compute. reflexivity.
Defined.

(** *** Handlers *)

Lemma call_gemini_model_world cfg sv p h w :
  snd (call_gemini_model cfg sv p h w) = w.
Proof.
  unfold call_gemini_model.
  destruct (gemini_configured cfg); simpl; [reflexivity|].
  unfold bind, get_data; simpl.
  destruct (asked_for_name_in_last_turn (data w) && _); [reflexivity|].
  destruct (customer_info (data w)) as [d|]; [|reflexivity].
  destruct (info_truthy (Some d)); [|reflexivity].
  destruct (d !! "Random_Name") as [v|]; [|reflexivity].
  unfold bind, lift. destruct (py_str v); reflexivity.
Qed.

Lemma speak_data sv t w : data (snd (speak sv t w)) = data w.
Proof. unfold speak. destruct (stream_memory sv (speak_calls w)); reflexivity. Qed.

Lemma text_to_speech_data sv t w : data (snd (text_to_speech sv t w)) = data w.
Proof.
  unfold text_to_speech, try_except.
  destruct (speak sv _ w) as [[a|e] w'] eqn:E.
  - simpl. rewrite <- (speak_data sv (if str_nonempty t then t else internal_error_text) w).
    now rewrite E.
  - rewrite speak_data.
    rewrite <- (speak_data sv (if str_nonempty t then t else internal_error_text) w).
    now rewrite E.
Qed.

(** Speaking an answer leaves the session as it is. *)
Lemma spoken_answer_data sv t status w :
  data (snd ((a <- text_to_speech sv t ;; ret (SendFile a status)) w)) = data w.
Proof.
  unfold bind.
  destruct (text_to_speech sv t w) as [[a|e] w'] eqn:E; simpl;
    rewrite <- (text_to_speech_data sv t w); now rewrite E.
Qed.

(** The error handler of [/process_audio]: the JSON error is the answer
    and the session is left as it is. *)
Lemma error_handler_spec sv w :
  exists w',
    try_except
      (a <- text_to_speech sv unexpected_problem ;; send_file_with_status a 500)
      (fun _ => ret (Json "Critical System Error" 500)) w
    = (Ok (Json "Critical System Error" 500), w') /\ data w' = data w.
Proof.
  unfold try_except, bind, send_file_with_status, raise, ret.
  pose proof (text_to_speech_data sv unexpected_problem w) as H.
  destruct (text_to_speech sv unexpected_problem w) as [[a|e] w']; eauto.
Qed.

Lemma call_gemini_model_reply cfg sv p s n :
  call_gemini_model cfg sv p (conversation_history s) {| data := s; speak_calls := n |}
  = (reply_in cfg sv p s, {| data := s; speak_calls := n |}).
Proof.
  unfold reply_in, call_gemini_model.
  destruct (gemini_configured cfg); simpl; [reflexivity|].
  unfold bind, get_data; simpl.
  destruct (asked_for_name_in_last_turn s && _); [reflexivity|].
  destruct (customer_info s) as [d|]; [|reflexivity].
  destruct (info_truthy (Some d)); [|reflexivity].
  destruct (d !! "Random_Name") as [v|]; [|reflexivity].
  unfold bind, lift. destruct (py_str v); reflexivity.
Qed.

(** The lookup step of the route is [after_customer_utterance]. *)
Lemma record_customer_utterance_spec cfg t s n :
  record_customer_utterance cfg t {| data := s; speak_calls := n |}
  = (Ok tt, {| data := after_customer_utterance cfg t s; speak_calls := n |}).
Proof.
  unfold record_customer_utterance, after_customer_utterance, bind, modify,
    get_data, when, attach_details, attach, ret.
  simpl.
  destruct (asked_for_name_in_last_turn s && _); [|reflexivity].
  unfold when, modify, ret.
  destruct (info_truthy (get_customer_details (customer_df cfg) (strip t))); reflexivity.
Qed.

(** The steps after the reply of the model are [after_agent_reply]. *)
Lemma record_agent_reply_spec p bot s n :
  record_agent_reply p bot {| data := s; speak_calls := n |}
  = (Ok tt, {| data := after_agent_reply p bot s; speak_calls := n |}).
Proof.
  unfold record_agent_reply, after_agent_reply, trim, bind, modify, get_data, when, ret.
  simpl.
  destruct (negb (info_truthy (customer_info s)) && _); simpl.
  - destruct (asks_for_name bot); simpl;
      match goal with |- context [(?a <? ?b)%nat] => destruct (a <? b)%nat end;
      reflexivity.
  - match goal with |- context [(?a <? ?b)%nat] => destruct (a <? b)%nat end;
      reflexivity.
Qed.

Lemma bind_ok {A B} (m : M A) (k : A -> M B) w a w' :
  m w = (Ok a, w') -> bind m k w = k a w'.
Proof. unfold bind. now intros ->. Qed.

(** A turn with a transcript, step by step. *)
Lemma process_audio_body_turn cfg sv buf t s n :
  transcribe_file sv buf = SttTranscript t ->
  str_nonempty t = true ->
  process_audio_body cfg sv buf {| data := s; speak_calls := n |} =
  let s1 := after_customer_utterance cfg t s in
  match generate_system_prompt (customer_info s1) with
  | Raise e => (Raise e, {| data := s1; speak_calls := n |})
  | Ok system_prompt =>
      match reply_in cfg sv system_prompt s1 with
      | Raise e => (Raise e, {| data := s1; speak_calls := n |})
      | Ok bot =>
          (a <- text_to_speech sv bot ;; ret (SendFile a 200))
            {| data := after_agent_reply system_prompt bot s1; speak_calls := n |}
      end
  end.
Proof.
  intros Ht Hne. unfold process_audio_body, transcribe. rewrite Ht.
  erewrite bind_ok by reflexivity. rewrite Hne. change (negb true) with false. cbv iota.
  erewrite bind_ok by apply record_customer_utterance_spec.
  erewrite bind_ok by reflexivity.
  cbv zeta. simpl data.
  destruct (generate_system_prompt _) as [p|e]; [|reflexivity].
  erewrite bind_ok by reflexivity.
  unfold bind at 1. rewrite call_gemini_model_reply.
  destruct (reply_in cfg sv p _) as [bot|e]; [|reflexivity].
  erewrite bind_ok by apply record_agent_reply_spec.
  reflexivity.
Qed.

Lemma process_audio_body_data cfg sv buf s n :
  data (snd (process_audio_body cfg sv buf {| data := s; speak_calls := n |})) =
  match transcribe_file sv buf with
  | SttRaises => s
  | SttTranscript t => if str_nonempty t then session_after_turn cfg sv t s else s
  end.
Proof.
  destruct (transcribe_file sv buf) as [|t] eqn:Ht.
  - unfold process_audio_body, transcribe, bind, raise. now rewrite Ht.
  - destruct (str_nonempty t) eqn:Hne.
    + rewrite (process_audio_body_turn cfg sv buf t s n Ht Hne).
      unfold session_after_turn. cbv zeta.
      destruct (generate_system_prompt _) as [p|e]; [|reflexivity].
      destruct (reply_in cfg sv p _) as [bot|e]; [|reflexivity].
      apply spoken_answer_data.
    + unfold process_audio_body, transcribe. rewrite Ht.
      erewrite bind_ok by reflexivity. rewrite Hne. change (negb false) with true.
      cbv iota. apply spoken_answer_data.
Qed.

(** The body of the [try] block answers with status 200 when it returns. *)
Lemma process_audio_body_ok cfg sv buf w r w' :
  process_audio_body cfg sv buf w = (Ok r, w') -> exists a, r = SendFile a 200.
Proof.
  destruct w as [s n]. destruct (transcribe_file sv buf) as [|t] eqn:Ht.
  - unfold process_audio_body, transcribe, bind, raise. rewrite Ht. discriminate.
  - destruct (str_nonempty t) eqn:Hne.
    + rewrite (process_audio_body_turn cfg sv buf t s n Ht Hne). cbv zeta.
      destruct (generate_system_prompt _) as [p|e]; [|discriminate].
      destruct (reply_in cfg sv p _) as [bot|e]; [|discriminate].
      unfold bind, ret.
      destruct (text_to_speech sv bot _) as [[a|e] w'']; [|discriminate].
      intros H. injection H as <- _. eauto.
    + unfold process_audio_body, transcribe. rewrite Ht.
      erewrite bind_ok by reflexivity. rewrite Hne. change (negb false) with true.
      cbv iota. unfold bind, ret.
      destruct (text_to_speech sv didnt_catch _) as [[a|e] w'']; [|discriminate].
      intros H. injection H as <- _. eauto.
Qed.

(** The session a [/process_audio] request leaves behind. *)
Lemma process_audio_route_session cfg sv audio_data s :
  session_after (process_audio_route cfg sv audio_data) s =
  match audio_data with
  | None => s
  | Some buf =>
      match transcribe_file sv buf with
      | SttRaises => s
      | SttTranscript t => if str_nonempty t then session_after_turn cfg sv t s else s
      end
  end.
Proof.
  destruct audio_data as [buf|]; [|reflexivity].
  rewrite <- (process_audio_body_data cfg sv buf s 0).
  unfold session_after, handle, process_audio_route, try_except.
  destruct (process_audio_body cfg sv buf _) as [[r|e] w'] eqn:E; simpl; [reflexivity|].
  destruct (error_handler_spec sv w') as (w'' & H & Hdata).
  unfold try_except in H. rewrite H. exact Hdata.
Qed.

(** The session an [/initiate_call] request leaves behind. *)
Lemma initiate_call_route_session cfg sv customerName s :
  session_after (initiate_call_route cfg sv (BodyObject customerName)) s
  = session_after_initiate cfg sv customerName.
Proof.
  unfold session_after, handle, initiate_call_route, session_after_initiate.
  cbv zeta.
  erewrite bind_ok by reflexivity.
  repeat (erewrite bind_ok by reflexivity). simpl data.
  change (set_asked_for_name false
            (set_customer_info None (set_conversation_history [] s)))
    with active_call_data.
  set (input := strip (default EmptyString customerName)).
  set (s0 := if str_nonempty input
             then attach (get_customer_details (customer_df cfg) input) active_call_data
             else active_call_data).
  assert (Hwhen :
    when (str_nonempty input)
      (attach_details (get_customer_details (customer_df cfg) input))
      {| data := active_call_data; speak_calls := 0 |}
    = (Ok tt, {| data := s0; speak_calls := 0 |})).
  { unfold when, attach_details, attach, s0, when, modify, ret, attach.
    destruct (str_nonempty input); [|reflexivity].
    destruct (info_truthy _); reflexivity. }
  erewrite bind_ok by exact Hwhen.
  erewrite bind_ok by reflexivity. simpl data.
  destruct (generate_system_prompt (customer_info s0)) as [p|e]; [|reflexivity].
  erewrite bind_ok by reflexivity.
  unfold bind at 1. rewrite call_gemini_model_reply.
  destruct (reply_in cfg sv p s0) as [bot|e]; [|reflexivity].
  erewrite bind_ok by reflexivity. simpl data.
  unfold when, try_except.
  destruct (negb (info_truthy (customer_info s0)) && _).
  - erewrite bind_ok by reflexivity. erewrite bind_ok by reflexivity.
    pose proof (spoken_answer_data sv bot 200
                  {| data := append_entry model bot (set_asked_for_name true s0);
                     speak_calls := 0 |}) as H.
    simpl in *.
    destruct (bind (text_to_speech sv bot) _ _) as [[r|e] w']; exact H.
  - erewrite bind_ok by reflexivity. erewrite bind_ok by reflexivity.
    pose proof (spoken_answer_data sv bot 200
                  {| data := append_entry model bot s0; speak_calls := 0 |}) as H.
    simpl in *.
    destruct (bind (text_to_speech sv bot) _ _) as [[r|e] w']; exact H.
Qed.

(** *** The session invariant *)

Lemma named_row_truthy (d : row) : named_row d -> info_truthy (Some d) = true.
Proof.
  intros [name H]. unfold info_truthy.
  destruct (size d) eqn:E; [|reflexivity].
  apply map_size_empty_iff in E. subst d. now rewrite lookup_empty in H.
Qed.

Lemma name_matches_named name (r : row) : name_matches name r = true -> named_row r.
Proof.
  unfold name_matches, named_row.
  destruct (r !! "Random_Name") as [[| | | |n]|]; try discriminate. eauto.
Qed.

Lemma get_customer_details_named df name (r : row) :
  get_customer_details df name = Some r -> named_row r.
Proof.
  unfold get_customer_details. destruct df as [|r0 df]; [discriminate|].
  intros H. apply find_some in H as [_ H]. eapply name_matches_named, H.
Qed.

Lemma unknown_is_none s :
  info_from_directory s -> info_truthy (customer_info s) = false -> customer_info s = None.
Proof.
  unfold info_from_directory. destruct (customer_info s) as [d|]; [|reflexivity].
  intros H. now rewrite (named_row_truthy d H).
Qed.

Lemma invariant_load : session_invariant active_call_data.
Proof. split; [intros H; reflexivity | exact I]. Qed.

Lemma invariant_attach df name s :
  info_from_directory s -> info_from_directory (attach (get_customer_details df name) s).
Proof.
  unfold attach. destruct (get_customer_details df name) as [r|] eqn:E; simpl; [|auto].
  destruct (negb _); [|auto].
  intros _. unfold info_from_directory. simpl. eapply get_customer_details_named, E.
Qed.

Lemma invariant_after_customer_utterance cfg t s :
  session_invariant s -> session_invariant (after_customer_utterance cfg t s).
Proof.
  intros [Hflag Hdir]. unfold after_customer_utterance.
  destruct (asked_for_name_in_last_turn _ && _).
  - split; [intros H; discriminate|].
    apply (invariant_attach (customer_df cfg) (strip t) (append_entry user t s)), Hdir.
  - split; [exact Hflag | exact Hdir].
Qed.

Lemma invariant_trim s : session_invariant s -> session_invariant (trim s).
Proof. unfold trim. destruct (_ <? _)%nat; [|auto]. intros [H1 H2]. split; assumption. Qed.

Lemma invariant_after_agent_reply p bot s :
  session_invariant s -> session_invariant (after_agent_reply p bot s).
Proof.
  intros [Hflag Hdir]. unfold after_agent_reply. apply invariant_trim.
  destruct (negb (info_truthy (customer_info s))) eqn:E; simpl.
  - destruct (py_in _ p && asks_for_name bot).
    + split; [intros _; simpl; apply unknown_is_none; [exact Hdir|] | exact Hdir].
      now apply negb_true_iff.
    + split; [exact Hflag | exact Hdir].
  - split; [exact Hflag | exact Hdir].
Qed.

Lemma invariant_session_after_turn cfg sv t s :
  session_invariant s -> session_invariant (session_after_turn cfg sv t s).
Proof.
  intros H. unfold session_after_turn. cbv zeta.
  pose proof (invariant_after_customer_utterance cfg t s H) as H1.
  destruct (generate_system_prompt _) as [p|e]; [|exact H1].
  destruct (reply_in cfg sv p _) as [bot|e]; [|exact H1].
  now apply invariant_after_agent_reply.
Qed.

Lemma invariant_session_after_initiate cfg sv customerName :
  session_invariant (session_after_initiate cfg sv customerName).
Proof.
  unfold session_after_initiate. cbv zeta.
  set (input := strip (default EmptyString customerName)).
  set (s0 := if str_nonempty input then _ else _).
  assert (H0 : session_invariant s0).
  { unfold s0. destruct (str_nonempty input); [|apply invariant_load].
    split; [|apply invariant_attach; exact I].
    unfold attach. destruct (info_truthy _); intros H; discriminate. }
  destruct (generate_system_prompt _) as [p|e]; [|exact H0].
  destruct (reply_in cfg sv p s0) as [bot|e]; [|exact H0].
  destruct H0 as [Hflag Hdir].
  destruct (negb (info_truthy (customer_info s0))) eqn:E; simpl.
  - destruct (py_in _ p).
    + split; [intros _; simpl; apply unknown_is_none; [exact Hdir|] | exact Hdir].
      now apply negb_true_iff.
    + split; [exact Hflag | exact Hdir].
  - split; [exact Hflag | exact Hdir].
Qed.

(** A request whose body cannot be read raises before the session is
    reset. *)
Lemma initiate_call_route_unread cfg sv body e s :
  read_customer_name body = Raise e ->
  handle (initiate_call_route cfg sv body) s = (Raise e, s).
Proof.
  intros H. unfold handle, initiate_call_route, bind, lift. now rewrite H.
Qed.

Lemma reachable_invariant cfg s : reachable cfg s -> session_invariant s.
Proof.
  induction 1 as [|s _ _|s sv body _ IH|s sv audio_data _ IH].
  - apply invariant_load.
  - apply invariant_load.
  - destruct body as [| | |customerName];
      try (unfold session_after;
           erewrite initiate_call_route_unread by reflexivity; exact IH).
    rewrite initiate_call_route_session. apply invariant_session_after_initiate.
  - rewrite process_audio_route_session.
    destruct audio_data as [buf|]; [|exact IH].
    destruct (transcribe_file sv buf) as [|t]; [exact IH|].
    destruct (str_nonempty t); [|exact IH].
    now apply invariant_session_after_turn.
Qed.

(** Claim C1.  In every session reachable through [/], [/initiate_call] and
    [/process_audio], whatever the services answer and whether or not the
    request ended in an error, [asked_for_name_in_last_turn] is true only
    while [customer_info] is absent; once a customer is attached the flag
    is false. *)
Theorem flag_only_while_customer_unknown (cfg : config) (s : session) :
  reachable cfg s ->
  (asked_for_name_in_last_turn s = true -> customer_info s = None) /\
  (forall d, customer_info s = Some d -> asked_for_name_in_last_turn s = false).
Proof.
  intros Hreach. destruct (reachable_invariant cfg s Hreach) as [Hflag _].
  split; [exact Hflag|].
  intros d Hd. destruct (asked_for_name_in_last_turn s) eqn:E; [|reflexivity].
  rewrite (Hflag E) in Hd. discriminate.
Qed.

Lemma flag_only_while_customer_unknown_witness :
  let s := session_after
             (process_audio_route one_customer (echo_services speech_up) (Some "John Doe"))
             (session_after
                (initiate_call_route one_customer (echo_services speech_up)
                   (BodyObject None))
                active_call_data) in
  (asked_for_name_in_last_turn s = true -> customer_info s = None) /\
  (forall d, customer_info s = Some d -> asked_for_name_in_last_turn s = false).
Proof.
  apply (flag_only_while_customer_unknown one_customer).
  apply reach_process_audio, reach_initiate_call, reach_load.
Defined.

(** *** The conversation history *)

Lemma history_after_customer_utterance cfg t s :
  conversation_history (after_customer_utterance cfg t s)
  = (conversation_history s ++ [{| entry_role := user; entry_text := t |}])%list.
Proof.
  unfold after_customer_utterance, attach.
  destruct (asked_for_name_in_last_turn _ && _); [|reflexivity].
  destruct (info_truthy _); reflexivity.
Qed.

Lemma customer_info_after_agent_reply p bot s :
  customer_info (after_agent_reply p bot s) = customer_info s.
Proof.
  unfold after_agent_reply, trim.
  destruct (_ && asks_for_name bot); destruct (_ <? _)%nat; reflexivity.
Qed.

Lemma flag_after_agent_reply p bot s :
  asked_for_name_in_last_turn (after_agent_reply p bot s)
  = if negb (info_truthy (customer_info s))
       && py_in UNKNOWN_CUSTOMER_PLACEHOLDER p && asks_for_name bot
    then true else asked_for_name_in_last_turn s.
Proof.
  unfold after_agent_reply, trim.
  destruct (_ && asks_for_name bot); destruct (_ <? _)%nat; reflexivity.
Qed.

Lemma history_after_agent_reply p bot s :
  conversation_history (after_agent_reply p bot s)
  = let h := (conversation_history s
              ++ [{| entry_role := model; entry_text := bot |}])%list in
    if (MAX_HISTORY_TURNS * 2 <? length h)%nat
    then last_entries (MAX_HISTORY_TURNS * 2) h else h.
Proof.
  unfold after_agent_reply, trim.
  destruct (_ && asks_for_name bot); simpl;
    match goal with |- context [(?a <? ?b)%nat] => destruct (a <? b)%nat end;
    reflexivity.
Qed.

Lemma alternating_tail a h : alternating (a :: h) = true -> alternating h = true.
Proof.
  destruct h as [|b h]; [reflexivity|].
  simpl. intros H. apply andb_true_iff in H as [_ H]. exact H.
Qed.

Lemma alternating_skipn k h : alternating h = true -> alternating (skipn k h) = true.
Proof.
  revert h. induction k as [|k IH]; intros h H; [exact H|].
  destruct h as [|a h]; [reflexivity|].
  simpl skipn. apply IH. eapply alternating_tail, H.
Qed.

(** What trimming does to a history [h]: at most [2 * MAX_HISTORY_TURNS]
    entries are kept, they are the most recent ones, and they alternate
    when [h] did. *)
Lemma trimmed_history (h : list utterance) :
  let h' := if (MAX_HISTORY_TURNS * 2 <? length h)%nat
            then last_entries (MAX_HISTORY_TURNS * 2) h else h in
  (length h' <= MAX_HISTORY_TURNS * 2)%nat /\
  h = (firstn (length h - MAX_HISTORY_TURNS * 2) h ++ h')%list /\
  length h' = Nat.min (length h) (MAX_HISTORY_TURNS * 2) /\
  (alternating h = true -> alternating h' = true).
Proof.
  cbv zeta. unfold last_entries.
  destruct (_ <? _)%nat eqn:E.
  - apply Nat.ltb_lt in E.
    repeat split.
    + rewrite length_skipn. lia.
    + symmetry. apply firstn_skipn.
    + rewrite length_skipn. lia.
    + apply alternating_skipn.
  - apply Nat.ltb_ge in E.
    replace (length h - MAX_HISTORY_TURNS * 2)%nat with 0%nat by lia.
    repeat split; [exact E | lia | auto].
Qed.

(** A [/process_audio] request that answers with status 200 on a transcript
    ran every step of the turn. *)
Lemma completed_turn cfg sv buf t s a :
  transcribe_file sv buf = SttTranscript t ->
  str_nonempty t = true ->
  answer_of (process_audio_route cfg sv (Some buf)) s = Ok (SendFile a 200) ->
  exists p bot,
    generate_system_prompt (customer_info (after_customer_utterance cfg t s)) = Ok p /\
    reply_in cfg sv p (after_customer_utterance cfg t s) = Ok bot /\
    session_after (process_audio_route cfg sv (Some buf)) s
    = after_agent_reply p bot (after_customer_utterance cfg t s).
Proof.
  intros Ht Hne Hans.
  assert (Herr : forall w r w',
    try_except
      (error_audio_bytes <- text_to_speech sv unexpected_problem ;;
       send_file_with_status error_audio_bytes 500)
      (fun _ => ret (Json "Critical System Error" 500)) w = (r, w') ->
    r <> Ok (SendFile a 200)).
  { intros w r w' H. destruct (error_handler_spec sv w) as (w'' & Hw & _).
    rewrite Hw in H. injection H as <- _. discriminate. }
  rewrite process_audio_route_session, Ht, Hne.
  unfold answer_of, handle, process_audio_route in Hans.
  unfold try_except at 1 in Hans.
  rewrite (process_audio_body_turn cfg sv buf t s 0 Ht Hne) in Hans.
  cbv zeta in Hans. unfold session_after_turn. cbv zeta.
  destruct (generate_system_prompt _) as [p|e] eqn:Hp.
  - destruct (reply_in cfg sv p _) as [bot|e] eqn:Hbot.
    + now exists p, bot.
    + exfalso.
      destruct (try_except _ _ _) as [r w'] eqn:E in Hans.
      apply Herr in E. apply E. exact Hans.
  - exfalso.
    destruct (try_except _ _ _) as [r w'] eqn:E in Hans.
    apply Herr in E. apply E. exact Hans.
Qed.

(** Claim C4.  After every completed [/process_audio] turn (a transcript
    was heard and the answer has status 200) the history holds at most
    [2 * MAX_HISTORY_TURNS = 20] entries; they are the most recent entries of
    the old history followed by the customer utterance and the reply, the
    oldest entries having been dropped first and no more than needed; and
    when the untrimmed history alternates between the roles, so does what is
    kept. *)
Theorem history_bounded_and_trimmed cfg sv buf t s a :
  transcribe_file sv buf = SttTranscript t ->
  str_nonempty t = true ->
  answer_of (process_audio_route cfg sv (Some buf)) s = Ok (SendFile a 200) ->
  let h' := conversation_history
              (session_after (process_audio_route cfg sv (Some buf)) s) in
  exists bot dropped,
    let full := (conversation_history s
                 ++ [{| entry_role := user; entry_text := t |};
                     {| entry_role := model; entry_text := bot |}])%list in
    (length h' <= 20)%nat /\
    full = (dropped ++ h')%list /\
    length h' = Nat.min (length full) 20 /\
    (alternating full = true -> alternating h' = true).
Proof.
  intros Ht Hne Hans. cbv zeta.
  destruct (completed_turn cfg sv buf t s a Ht Hne Hans) as (p & bot & _ & _ & ->).
  rewrite history_after_agent_reply, history_after_customer_utterance. cbv zeta.
  rewrite <- app_assoc. simpl app.
  set (full := (conversation_history s ++ _)%list).
  exists bot, (firstn (length full - MAX_HISTORY_TURNS * 2) full).
  exact (trimmed_history full).
Qed.

(** Twelve earlier exchanges, so that the witness below does trim. *)
Lemma history_bounded_and_trimmed_witness :
  let s := set_conversation_history
             (repeat {| entry_role := model; entry_text := "..." |} 24)
             active_call_data in
  let route := process_audio_route one_customer (echo_services speech_up) (Some "hello") in
  exists bot dropped,
    let full := (conversation_history s
                 ++ [{| entry_role := user; entry_text := "hello" |};
                     {| entry_role := model; entry_text := bot |}])%list in
    (length (conversation_history (session_after route s)) <= 20)%nat /\
    full = (dropped ++ conversation_history (session_after route s))%list /\
    length (conversation_history (session_after route s)) = Nat.min (length full) 20 /\
    (alternating full = true ->
     alternating (conversation_history (session_after route s)) = true).
Proof.
  cbv zeta.
  apply (history_bounded_and_trimmed one_customer (echo_services speech_up) "hello" "hello"
           _ (Speech mock_ask_name)); reflexivity.
Defined.

(** *** The name-request rule *)

Lemma last_snoc {A} (l : list A) (x d : A) : List.last (l ++ [x]) d = x.
Proof. apply last_last. Qed.

Lemma reply_when_unknown cfg sv p s :
  info_truthy (customer_info s) = false -> exists bot, reply_in cfg sv p s = Ok bot.
Proof.
  intros H. unfold reply_in, call_gemini_model.
  destruct (gemini_configured cfg); simpl; [eauto|].
  unfold bind, get_data; simpl. rewrite H.
  destruct (asked_for_name_in_last_turn s); simpl; [eauto|].
  destruct (customer_info s); simpl; eauto.
Qed.

Lemma unknown_after_customer_utterance cfg t s :
  info_truthy (customer_info (after_customer_utterance cfg t s)) = false ->
  asked_for_name_in_last_turn (after_customer_utterance cfg t s) = false.
Proof.
  unfold after_customer_utterance.
  destruct (asked_for_name_in_last_turn (append_entry user t s)
            && negb (info_truthy (customer_info (append_entry user t s)))) eqn:E;
    [reflexivity|].
  intros H. simpl in *. rewrite H in E. now rewrite andb_true_r in E.
Qed.

(** Claim C5.  In a [/process_audio] turn with a transcript in which
    [customer_info] is still absent after the lookup step, the model replies
    and the turn ends with [asked_for_name_in_last_turn] true if and only if
    the lowercased reply contains "name" together with "what is your" or
    "could you tell me"; otherwise the flag is false. *)
Theorem name_request_rule cfg sv buf t s :
  transcribe_file sv buf = SttTranscript t ->
  str_nonempty t = true ->
  info_truthy (customer_info (after_customer_utterance cfg t s)) = false ->
  let s' := session_after (process_audio_route cfg sv (Some buf)) s in
  exists p bot,
    generate_system_prompt (customer_info (after_customer_utterance cfg t s)) = Ok p /\
    reply_in cfg sv p (after_customer_utterance cfg t s) = Ok bot /\
    List.last (conversation_history s') {| entry_role := user; entry_text := t |}
    = {| entry_role := model; entry_text := bot |} /\
    customer_info s' = customer_info (after_customer_utterance cfg t s) /\
    asked_for_name_in_last_turn s'
    = (py_in "name" (lower bot)
       && (py_in "what is your" (lower bot) || py_in "could you tell me" (lower bot))).
Proof.
  intros Ht Hne Habsent. cbv zeta.
  rewrite process_audio_route_session, Ht, Hne. unfold session_after_turn. cbv zeta.
  set (s1 := after_customer_utterance cfg t s) in *.
  pose proof (compose_unknown _ Habsent) as Hp.
  set (p := unknown_prompt) in Hp.
  assert (Hin : py_in UNKNOWN_CUSTOMER_PLACEHOLDER p = true)
    by apply prompt_has_placeholder.
  destruct (reply_when_unknown cfg sv p s1 Habsent) as (bot & Hbot).
  exists p, bot.
  split; [exact Hp|]. split; [exact Hbot|]. rewrite Hp, Hbot.
  split; [|split].
  - rewrite history_after_agent_reply. cbv zeta. unfold last_entries.
    destruct (_ <? _)%nat eqn:E; [|apply last_snoc].
    rewrite skipn_app.
    replace (length (conversation_history s1 ++ [_])%list
             - MAX_HISTORY_TURNS * 2 - length (conversation_history s1))%nat
      with 0%nat by (rewrite length_app; simpl; lia).
    apply last_snoc.
  - apply customer_info_after_agent_reply.
  - rewrite flag_after_agent_reply, Habsent, Hin.
    pose proof (unknown_after_customer_utterance cfg t s Habsent) as Hflag.
    fold s1 in Hflag. rewrite Hflag. simpl.
    fold (asks_for_name bot). now destruct (asks_for_name bot).
Qed.

Lemma name_request_rule_witness :
  let cfg := one_customer in
  let sv := echo_services speech_up in
  let s' := session_after (process_audio_route cfg sv (Some "Jane Smith")) active_call_data in
  exists p bot,
    generate_system_prompt
      (customer_info (after_customer_utterance cfg "Jane Smith" active_call_data)) = Ok p /\
    reply_in cfg sv p (after_customer_utterance cfg "Jane Smith" active_call_data) = Ok bot /\
    List.last (conversation_history s') {| entry_role := user; entry_text := "Jane Smith" |}
    = {| entry_role := model; entry_text := bot |} /\
    customer_info s' = customer_info (after_customer_utterance cfg "Jane Smith" active_call_data) /\
    asked_for_name_in_last_turn s'
    = (py_in "name" (lower bot)
       && (py_in "what is your" (lower bot) || py_in "could you tell me" (lower bot))).
Proof.
  cbv zeta.
  apply (name_request_rule one_customer (echo_services speech_up) "Jane Smith" "Jane Smith");
    reflexivity.
Defined.

(** *** The mock dialogue engine *)

(** Claim C6.  With the backend disabled, [call_gemini_model] does not
    consult the services, the prompt or the history: its reply is chosen by
    the identity state of the session alone.  While a name is awaited (flag
    set, no customer) it is the mock that answers a provided name; otherwise
    it is a canned greeting, by the name as [str] prints it when a customer
    is attached and the request for the full name when none is; and in
    every reachable session it returns. *)
Theorem mock_reply_by_identity_state cfg sv sv' p p' h h' w :
  gemini_configured cfg = false ->
  call_gemini_model cfg sv p h w = call_gemini_model cfg sv' p' h' w /\
  (asked_for_name_in_last_turn (data w) = true ->
   info_truthy (customer_info (data w)) = false ->
   call_gemini_model cfg sv p h w
   = (Ok "Thank you. My name is Mock User. What is this call regarding?", w)) /\
  (asked_for_name_in_last_turn (data w) = false ->
   info_truthy (customer_info (data w)) = false ->
   call_gemini_model cfg sv p h w = (Ok mock_ask_name, w)) /\
  (forall d v,
     customer_info (data w) = Some d ->
     info_truthy (Some d) = true ->
     d !! "Random_Name" = Some v ->
     call_gemini_model cfg sv p h w
     = (rbind (py_str v) (fun name => Ok (mock_greeting name)), w)) /\
  (reachable cfg (data w) -> is_ok (fst (call_gemini_model cfg sv p h w)) = true).
Proof.
  intros Hoff. unfold call_gemini_model. rewrite Hoff.
  change (negb false) with true. cbv iota.
  unfold bind, get_data. cbv beta iota.
  split; [reflexivity|]. split; [|split; [|split]].
  - intros -> ->. reflexivity.
  - intros -> Habsent. rewrite Habsent. simpl.
    destruct (customer_info (data w)); reflexivity.
  - intros d v Hd Htruthy Hname. rewrite Hd, Htruthy, Hname.
    rewrite andb_false_r. unfold bind, lift. destruct (py_str v); reflexivity.
  - intros Hreach.
    destruct (reachable_invariant cfg (data w) Hreach) as [_ Hdir].
    unfold info_from_directory in Hdir.
    destruct (asked_for_name_in_last_turn (data w) && _); [reflexivity|].
    destruct (customer_info (data w)) as [d|]; [|reflexivity].
    destruct (info_truthy (Some d)); [|reflexivity].
    destruct Hdir as [name ->]. reflexivity.
Qed.

Lemma mock_reply_by_identity_state_witness :
  let cfg := one_customer in
  let sv := echo_services speech_up in
  let sv' := echo_services speech_down in
  let w := {| data := awaiting_name; speak_calls := 0 |} in
  call_gemini_model cfg sv "prompt" [] w = call_gemini_model cfg sv' "another" [] w /\
  (asked_for_name_in_last_turn (data w) = true ->
   info_truthy (customer_info (data w)) = false ->
   call_gemini_model cfg sv "prompt" [] w
   = (Ok "Thank you. My name is Mock User. What is this call regarding?", w)) /\
  (asked_for_name_in_last_turn (data w) = false ->
   info_truthy (customer_info (data w)) = false ->
   call_gemini_model cfg sv "prompt" [] w = (Ok mock_ask_name, w)) /\
  (forall d v,
     customer_info (data w) = Some d ->
     info_truthy (Some d) = true ->
     d !! "Random_Name" = Some v ->
     call_gemini_model cfg sv "prompt" [] w
     = (rbind (py_str v) (fun name => Ok (mock_greeting name)), w)) /\
  (reachable cfg (data w) -> is_ok (fst (call_gemini_model cfg sv "prompt" [] w)) = true).
Proof.
  cbv zeta.
  apply (mock_reply_by_identity_state one_customer (echo_services speech_up)
           (echo_services speech_down) "prompt" "another" [] []
           {| data := awaiting_name; speak_calls := 0 |}).
  reflexivity.
Defined.

Lemma reply_in_mock cfg sv p s :
  gemini_configured cfg = false ->
  reply_in cfg sv p s =
  if asked_for_name_in_last_turn s && negb (info_truthy (customer_info s))
  then Ok mock_after_name
  else match customer_info s with
       | Some d =>
           if info_truthy (Some d) then
             match d !! "Random_Name" with
             | Some v => rbind (py_str v) (fun name => Ok (mock_greeting name))
             | None => Raise KeyError
             end
           else Ok mock_ask_name
       | None => Ok mock_ask_name
       end.
Proof.
  intros Hoff. unfold reply_in, call_gemini_model. rewrite Hoff.
  change (negb false) with true. cbv iota.
  unfold bind, get_data. cbv beta iota. cbn [data].
  destruct (asked_for_name_in_last_turn s && _); [reflexivity|].
  destruct (customer_info s) as [d|]; [|reflexivity].
  destruct (info_truthy (Some d)); [|reflexivity].
  destruct (d !! "Random_Name") as [v|]; [|reflexivity].
  unfold bind, lift. destruct (py_str v); reflexivity.
Qed.

(** The flag is cleared before the model is called: within a
    [/process_audio] turn the mock that answers a provided name is never the
    reply. *)
Lemma clarification_mock_not_replied_in_turn cfg sv p t s :
  gemini_configured cfg = false ->
  reply_in cfg sv p (after_customer_utterance cfg t s) <> Ok mock_after_name.
Proof.
  intros Hoff. rewrite (reply_in_mock cfg sv p _ Hoff).
  assert (H : asked_for_name_in_last_turn (after_customer_utterance cfg t s)
              && negb (info_truthy (customer_info (after_customer_utterance cfg t s)))
              = false).
  { unfold after_customer_utterance.
    destruct (asked_for_name_in_last_turn (append_entry user t s)
              && negb (info_truthy (customer_info (append_entry user t s)))) eqn:E;
      [reflexivity | exact E]. }
  rewrite H.
  destruct (customer_info _) as [d|]; [|discriminate].
  destruct (info_truthy (Some d)); [|discriminate].
  destruct (d !! "Random_Name") as [v|]; [|discriminate].
  destruct (py_str v) as [name|e]; [|discriminate].
  unfold mock_greeting, mock_after_name. cbn [rbind]. discriminate.
Qed.

(** *** Requests that do not complete a turn *)

(** Counterexample to claim C8 as stated: the transcript is empty and the
    first synthesis attempt fails; the request answers with the fallback
    apology of the speech adapter, not with the re-prompt. *)
Lemma empty_transcript_fallback_counterexample :
  let route := process_audio_route one_customer (echo_services speech_first_fails)
                 (Some EmptyString) in
  transcribe_file (echo_services speech_first_fails) EmptyString
  = SttTranscript EmptyString /\
  answer_of route awaiting_name = Ok (SendFile (Speech fallback_text) 200) /\
  answer_of route awaiting_name <> Ok (SendFile (Speech didnt_catch) 200).
Proof. cbv zeta. split; [reflexivity|]. split; [reflexivity|]. discriminate. Qed.

(** Claim C8, amended.  A [/process_audio] request whose transcript is empty
    leaves the whole session as it was, and its answer is the spoken
    re-prompt "didn't catch that" exactly when the first synthesis attempt
    of the request succeeds.  Otherwise the answer is the fallback apology
    of the speech adapter when the second attempt succeeds, and the JSON
    error when it fails too. *)
Theorem empty_transcript_reprompt cfg sv buf s :
  transcribe_file sv buf = SttTranscript EmptyString ->
  session_after (process_audio_route cfg sv (Some buf)) s = s /\
  (answer_of (process_audio_route cfg sv (Some buf)) s
   = Ok (SendFile (Speech "I'm sorry, I didn't catch that. Could you please repeat?") 200)
   <-> stream_memory sv 0 = SpeakAudio) /\
  (stream_memory sv 0 <> SpeakAudio ->
   answer_of (process_audio_route cfg sv (Some buf)) s
   = match stream_memory sv 1 with
     | SpeakAudio => Ok (SendFile (Speech fallback_text) 200)
     | _ => Ok (Json "Critical System Error" 500)
     end).
Proof.
  intros Ht. split; [|split].
  - rewrite process_audio_route_session, Ht. reflexivity.
  - unfold answer_of, handle, process_audio_route, try_except, process_audio_body,
      transcribe, bind, send_file_with_status, raise, ret. rewrite Ht.
    unfold text_to_speech, try_except, speak. cbn [speak_calls data str_nonempty negb].
    destruct (stream_memory sv 0) eqn:E0; cbn [fst snd speak_calls data].
    4: now split.
    all: split; [|discriminate].
    all: destruct (stream_memory sv 1); cbn [fst snd speak_calls data];
      try discriminate.
    all: destruct (stream_memory sv 2); cbn [fst snd speak_calls data];
      try discriminate.
    all: destruct (stream_memory sv 3); cbn [fst snd speak_calls data]; discriminate.
  - intros H0.
    unfold answer_of, handle, process_audio_route, try_except, process_audio_body,
      transcribe, bind, send_file_with_status, raise, ret. rewrite Ht.
    unfold text_to_speech, try_except, speak. cbn [speak_calls data str_nonempty negb].
    destruct (stream_memory sv 0) eqn:E0; cbn [fst snd speak_calls data];
      [| | |now destruct H0].
    all: destruct (stream_memory sv 1); cbn [fst snd speak_calls data];
      try reflexivity.
    all: destruct (stream_memory sv 2); cbn [fst snd speak_calls data];
      try reflexivity.
    all: destruct (stream_memory sv 3); cbn [fst snd speak_calls data]; reflexivity.
Qed.

Lemma empty_transcript_reprompt_witness :
  let route := process_audio_route one_customer (echo_services speech_up)
                 (Some EmptyString) in
  session_after route awaiting_name = awaiting_name /\
  (answer_of route awaiting_name
   = Ok (SendFile (Speech "I'm sorry, I didn't catch that. Could you please repeat?") 200)
   <-> stream_memory (echo_services speech_up) 0 = SpeakAudio) /\
  (stream_memory (echo_services speech_up) 0 <> SpeakAudio ->
   answer_of route awaiting_name
   = match stream_memory (echo_services speech_up) 1 with
     | SpeakAudio => Ok (SendFile (Speech fallback_text) 200)
     | _ => Ok (Json "Critical System Error" 500)
     end).
Proof.
  cbv zeta.
  apply (empty_transcript_reprompt one_customer (echo_services speech_up) EmptyString).
  reflexivity.
Defined.

(** A reply is always given in a session whose customer, if any, is a row
    with a textual name. *)
Lemma reply_from_directory cfg sv p s :
  info_from_directory s -> exists bot, reply_in cfg sv p s = Ok bot.
Proof.
  intros Hdir. unfold reply_in, call_gemini_model.
  destruct (gemini_configured cfg); simpl; [eauto|].
  unfold bind, get_data; simpl.
  destruct (asked_for_name_in_last_turn s && _); [simpl; eauto|].
  unfold info_from_directory in Hdir.
  destruct (customer_info s) as [d|]; [|simpl; eauto].
  destruct (info_truthy (Some d)); [|simpl; eauto].
  destruct Hdir as [name ->]. simpl. eauto.
Qed.

(** Counterexample to claim C2 as stated.  Speech synthesis is down: the
    turn ends in the error answer, yet the customer utterance and the reply
    stay in the history and the flag stays cleared. *)
Lemma failed_turn_keeps_changes_counterexample :
  let route := process_audio_route one_customer (echo_services speech_down) (Some "hello") in
  answer_of route awaiting_name = Ok (Json "Critical System Error" 500) /\
  ends_in_error (answer_of route awaiting_name) = true /\
  session_after route awaiting_name <> awaiting_name /\
  conversation_history (session_after route awaiting_name)
  = (conversation_history awaiting_name
     ++ [{| entry_role := user; entry_text := "hello" |};
         {| entry_role := model; entry_text := mock_ask_name |}])%list /\
  asked_for_name_in_last_turn awaiting_name = true /\
  asked_for_name_in_last_turn (session_after route awaiting_name) = false.
Proof.
  cbv zeta.
  split; [vm_compute; reflexivity|]. split; [vm_compute; reflexivity|].
  split; [|split; [vm_compute; reflexivity|split; vm_compute; reflexivity]].
  intros H. apply (f_equal asked_for_name_in_last_turn) in H.
  vm_compute in H. discriminate.
Qed.

(** Claim C2, amended.  Take a session whose flag and customer are
    consistent, and a [/process_audio] request for which the prompt of the
    session's customer can be composed.  When the request ends in an error,
    the answer is the JSON error with status 500 and the session is left in
    one of two states: unchanged (the transcription raised, or the
    transcript was empty and the re-prompt could not be spoken), or with the
    whole turn recorded (utterance, lookup, reply and flag), which happens
    when both synthesis attempts fail.  Nothing is rolled back; no utterance
    stays without its reply, and the flag and the customer stay
    consistent. *)
Theorem failed_turn_session cfg sv buf s :
  session_invariant s ->
  (forall t, transcribe_file sv buf = SttTranscript t ->
             is_ok (generate_system_prompt
                      (customer_info (after_customer_utterance cfg t s))) = true) ->
  ends_in_error (answer_of (process_audio_route cfg sv (Some buf)) s) = true ->
  let s' := session_after (process_audio_route cfg sv (Some buf)) s in
  answer_of (process_audio_route cfg sv (Some buf)) s
  = Ok (Json "Critical System Error" 500) /\
  ((transcribe_file sv buf = SttRaises \/
    transcribe_file sv buf = SttTranscript EmptyString) /\ s' = s
   \/ exists t p bot,
        transcribe_file sv buf = SttTranscript t /\ str_nonempty t = true /\
        let s1 := after_customer_utterance cfg t s in
        generate_system_prompt (customer_info s1) = Ok p /\
        reply_in cfg sv p s1 = Ok bot /\
        stream_memory sv 0 <> SpeakAudio /\
        stream_memory sv 1 <> SpeakAudio /\
        s' = after_agent_reply p bot s1) /\
  session_invariant s'.
Proof.
  intros Hinv Hcomp Herr. cbv zeta. split; [|split].
  3: { rewrite process_audio_route_session.
       destruct (transcribe_file sv buf) as [|t]; [exact Hinv|].
       destruct (str_nonempty t); [|exact Hinv].
       now apply invariant_session_after_turn. }
  - revert Herr. unfold answer_of, handle, process_audio_route, try_except.
    destruct (process_audio_body cfg sv buf _) as [[r|e] w'] eqn:E.
    + apply process_audio_body_ok in E as [a ->]. discriminate.
    + intros _. destruct (error_handler_spec sv w') as (w'' & H & _).
      unfold try_except in H. now rewrite H.
  - rewrite process_audio_route_session.
    destruct (transcribe_file sv buf) as [|t] eqn:Ht; [left; now split; [left|]|].
    destruct (str_nonempty t) eqn:Hne.
    2: { left. destruct t; [|discriminate]. now split; [right|]. }
    right. specialize (Hcomp t eq_refl).
    destruct (generate_system_prompt _) as [p|e] eqn:Hp; [|discriminate].
    destruct (reply_from_directory cfg sv p (after_customer_utterance cfg t s))
      as [bot Hbot].
    { now apply invariant_after_customer_utterance. }
    exists t, p, bot.
    split; [reflexivity|]. split; [exact Hne|]. cbv zeta.
    split; [exact Hp|]. split; [exact Hbot|].
    unfold session_after_turn. cbv zeta. rewrite Hp, Hbot.
    assert (Hspeak : stream_memory sv 0 <> SpeakAudio /\ stream_memory sv 1 <> SpeakAudio).
    { unfold answer_of, handle, process_audio_route in Herr.
      unfold try_except at 1 in Herr.
      rewrite (process_audio_body_turn cfg sv buf t s 0 Ht Hne) in Herr.
      cbv zeta in Herr. rewrite Hp, Hbot in Herr.
      unfold bind, text_to_speech, try_except, speak in Herr.
      cbn [speak_calls data] in Herr.
      destruct (stream_memory sv 0); [| | |discriminate];
        (split; [discriminate|]);
        cbn [speak_calls data fst snd] in Herr;
        (destruct (stream_memory sv 1); [| | |discriminate]); discriminate. }
    destruct Hspeak as [H0 H1]. split; [exact H0|]. split; [exact H1|]. reflexivity.
Qed.

Lemma failed_turn_session_witness :
  let cfg := one_customer in
  let sv := echo_services speech_down in
  let s := awaiting_name in
  let s' := session_after (process_audio_route cfg sv (Some "hello")) s in
  answer_of (process_audio_route cfg sv (Some "hello")) s
  = Ok (Json "Critical System Error" 500) /\
  ((transcribe_file sv "hello" = SttRaises \/
    transcribe_file sv "hello" = SttTranscript EmptyString) /\ s' = s
   \/ exists t p bot,
        transcribe_file sv "hello" = SttTranscript t /\ str_nonempty t = true /\
        let s1 := after_customer_utterance cfg t s in
        generate_system_prompt (customer_info s1) = Ok p /\
        reply_in cfg sv p s1 = Ok bot /\
        stream_memory sv 0 <> SpeakAudio /\
        stream_memory sv 1 <> SpeakAudio /\
        s' = after_agent_reply p bot s1) /\
  session_invariant s'.
Proof.
  cbv zeta.
  apply (failed_turn_session one_customer (echo_services speech_down) "hello" awaiting_name).
  - split; [intros _; reflexivity | exact I].
  - intros t Ht. injection Ht as <-. vm_compute. reflexivity.
  - vm_compute. reflexivity.
Defined.

(** *** Amounts *)




Lemma digits2_pos_bound p : Zpos p < 2 ^ Zpos (digits2_pos p).
Proof.
  induction p as [p IH|p IH|]; simpl digits2_pos;
    try (rewrite Pos2Z.inj_succ, Z.pow_succ_r by lia); lia.
Qed.







Lemma digits_le_lt m : (digits2_pos m <= 53)%positive -> Zpos m < 2 ^ 53.
Proof.
  intros Hm. pose proof (digits2_pos_bound m) as Hb.
  assert (2 ^ Zpos (digits2_pos m) <= 2 ^ 53) by (apply Z.pow_le_mono_r; lia). lia.
Qed.





Lemma format_currency_number v x :
  py_float v = Ok x -> format_currency v = Ok ("$" ++ format_f2 x).
Proof. unfold format_currency. now intros ->. Qed.


Lemma name_matches_iff name (r : row) :
  name_matches name r = true <-> row_named (lower (strip name)) r.
Proof.
  unfold name_matches, row_named. split.
  - destruct (r !! "Random_Name") as [[| | | |s]|]; try discriminate.
    intros H. apply String.eqb_eq in H. eauto.
  - intros (s & -> & H). now apply String.eqb_eq.
Qed.





(** Claim C3, at the input where the composer fails.  [format_currency]
    catches the error of [float] on a text amount and shows the text, and
    shows "N/A" for [None]; but for the half payment the composer calls
    [float] on the monthly payment outside that guard, and [int] on the
    credit score without any: a row whose monthly payment or credit score is
    text that is not a number makes [generate_system_prompt] raise
    [ValueError]. *)
Theorem composer_raises_on_text_amount :
  format_currency (PStr "abc") = Ok "abc" /\
  format_currency PNone = Ok "N/A" /\
  generate_system_prompt (Some (<["Monthly Debt" := PStr "abc"]> john_doe))
  = Raise ValueError /\
  generate_system_prompt (Some (<["Credit Score" := PStr "abc"]> john_doe))
  = Raise ValueError /\
  is_ok (generate_system_prompt
           (Some (<["Monthly Debt" := PNone]> (<["Credit Score" := PNone]> john_doe))))
  = true.
Proof. by_evaluation. Qed.

(** ** Further properties of the code *)

(** *** Text *)

Lemma lower_char_idem c : lower_char (lower_char c) = lower_char c.
Proof. destruct c as [[] [] [] [] [] [] [] []]; reflexivity. Qed.

Lemma is_space_lower_char c : is_space (lower_char c) = is_space c.
Proof. destruct c as [[] [] [] [] [] [] [] []]; reflexivity. Qed.

Lemma lower_idem s : lower (lower s) = lower s.
Proof. induction s as [|c s IH]; simpl; [reflexivity|]. now rewrite lower_char_idem, IH. Qed.

Lemma chars_text l : chars (text l) = l.
Proof. apply list_ascii_of_string_of_list_ascii. Qed.

Lemma text_chars s : text (chars s) = s.
Proof. apply string_of_list_ascii_of_string. Qed.

Lemma chars_lower s : chars (lower s) = map lower_char (chars s).
Proof. induction s as [|c s IH]; simpl; [reflexivity|]. now rewrite <- IH. Qed.

Lemma lstrip_chars_map_lower l :
  lstrip_chars (map lower_char l) = map lower_char (lstrip_chars l).
Proof.
  induction l as [|c l IH]; simpl; [reflexivity|].
  rewrite is_space_lower_char. now destruct (is_space c).
Qed.

Lemma strip_lower s : strip (lower s) = lower (strip s).
Proof.
  unfold strip. rewrite chars_lower, lstrip_chars_map_lower, <- map_rev,
    lstrip_chars_map_lower, <- map_rev.
  rewrite <- (text_chars (lower (text _))), chars_lower, chars_text. reflexivity.
Qed.

Lemma lstrip_chars_clean l : starts_clean (lstrip_chars l) = true.
Proof.
  induction l as [|c l IH]; simpl; [reflexivity|].
  destruct (is_space c) eqn:E; [exact IH|]. simpl. now rewrite E.
Qed.

Lemma lstrip_chars_of_clean l : starts_clean l = true -> lstrip_chars l = l.
Proof. destruct l as [|c l]; simpl; [reflexivity|]. now destruct (is_space c). Qed.

Lemma lstrip_chars_split l :
  exists p, l = (p ++ lstrip_chars l)%list.
Proof.
  induction l as [|c l [p IH]]; simpl; [now exists []|].
  destruct (is_space c); [|now exists []].
  exists (c :: p). simpl. now rewrite <- IH.
Qed.

Lemma rev_lstrip_rev_clean l :
  starts_clean l = true -> starts_clean (rev (lstrip_chars (rev l))) = true.
Proof.
  intros Hl. destruct (lstrip_chars_split (rev l)) as [p Hp].
  assert (Hl' : l = (rev (lstrip_chars (rev l)) ++ rev p)%list).
  { rewrite <- rev_app_distr, <- Hp. symmetry. apply rev_involutive. }
  destruct (rev (lstrip_chars (rev l))) as [|c r]; [reflexivity|].
  rewrite Hl' in Hl. exact Hl.
Qed.

Lemma strip_idem s : strip (strip s) = strip s.
Proof.
  unfold strip. rewrite chars_text.
  set (a := lstrip_chars (chars s)).
  assert (Ha : starts_clean a = true) by apply lstrip_chars_clean.
  rewrite (lstrip_chars_of_clean _ (rev_lstrip_rev_clean a Ha)).
  rewrite rev_involutive.
  rewrite (lstrip_chars_of_clean _ (lstrip_chars_clean (rev a))). reflexivity.
Qed.

(** *** The customer directory *)

Lemma find_first {A} (f : A -> bool) (l : list A) (x : A) :
  find f l = Some x ->
  exists before after,
    l = (before ++ x :: after)%list /\ f x = true /\
    forall y, In y before -> f y = false.
Proof.
  induction l as [|a l IH]; simpl; [discriminate|].
  destruct (f a) eqn:E.
  - intros H. injection H as <-. exists [], l. repeat split; [exact E|]. intros y [].
  - intros H. destruct (IH H) as (before & after & -> & Hx & Hb).
    exists (a :: before), after. repeat split; [exact Hx|].
    intros y [<-|Hy]; [exact E | now apply Hb].
Qed.

(** Property X1. A customer that is found is the first row of the table
    whose name, trimmed and in lower case, equals the query trimmed and in
    lower case. *)
Theorem get_customer_details_first df name (r : row) :
  get_customer_details df name = Some r ->
  exists before after,
    df = (before ++ r :: after)%list /\
    row_named (lower (strip name)) r /\
    forall r', In r' before -> ~ row_named (lower (strip name)) r'.
Proof.
  unfold get_customer_details. destruct df as [|r0 df]; [discriminate|].
  intros H. apply find_first in H as (before & after & Hdf & Hr & Hb).
  exists before, after. split; [exact Hdf|]. split; [now apply name_matches_iff|].
  intros r' Hin Hnamed. apply name_matches_iff in Hnamed.
  rewrite (Hb r' Hin) in Hnamed. discriminate.
Qed.

Lemma get_customer_details_first_witness :
  exists before after,
    [ann_lee; john_doe] = (before ++ john_doe :: after)%list /\
    row_named (lower (strip " JOHN DOE ")) john_doe /\
    forall r', In r' before -> ~ row_named (lower (strip " JOHN DOE ")) r'.
Proof.
  apply (get_customer_details_first [ann_lee; john_doe] " JOHN DOE " john_doe).
  vm_compute. reflexivity.
Defined.

(** Property X2. No customer is found exactly when no row of the table has
    the name of the query, trimmed and in lower case; an empty table finds
    nobody. *)
Theorem get_customer_details_none df name :
  get_customer_details df name = None <->
  forall r, In r df -> ~ row_named (lower (strip name)) r.
Proof.
  unfold get_customer_details. split.
  - destruct df as [|r0 df]; [intros _ r []|].
    intros H r Hin Hnamed. apply name_matches_iff in Hnamed.
    rewrite (find_none _ _ H r Hin) in Hnamed. discriminate.
  - intros H. destruct df as [|r0 df]; [reflexivity|].
    destruct (find _ _) as [r|] eqn:E; [|reflexivity].
    apply find_some in E as [Hin Hr]. apply name_matches_iff in Hr.
    now destruct (H r Hin).
Qed.

Lemma get_customer_details_same_key df a b :
  lower (strip a) = lower (strip b) ->
  get_customer_details df a = get_customer_details df b.
Proof.
  intros H. unfold get_customer_details. destruct df as [|r0 df]; [reflexivity|].
  assert (Hf : forall r : row, name_matches a r = name_matches b r)
    by (intros r; unfold name_matches; now rewrite H).
  generalize (r0 :: df). intros l.
  induction l as [|r l IH]; simpl; [reflexivity|]. now rewrite Hf, IH.
Qed.

(** Property X3. The lookup ignores the letter case of the query and the
    white space around it: trimming the query first, as [/process_audio]
    does, or lowering it changes nothing. *)
Theorem get_customer_details_ignores_case_and_space df name :
  get_customer_details df (strip name) = get_customer_details df name /\
  get_customer_details df (lower name) = get_customer_details df name.
Proof.
  split; apply get_customer_details_same_key.
  - now rewrite strip_idem.
  - now rewrite strip_lower, lower_idem.
Qed.

(** *** The prompt composer: what it raises and what it shows *)

Lemma float_of_str_raises s e : float_of_str s = Raise e -> e = ValueError.
Proof.
  unfold float_of_str. destruct (take_sign _) as [neg r].
  destruct (_ || _); [discriminate|]. destruct (String.eqb _ "nan"); [discriminate|].
  destruct (parse_floatnumber r) as [[n e10]|]; [discriminate|].
  intros H. now injection H.
Qed.

Lemma float_of_Z_raises z e : float_of_Z z = Raise e -> e = OverflowError.
Proof.
  unfold float_of_Z. destruct (binary_normalize _ _ _ _ _); try discriminate.
  intros H. now injection H.
Qed.

Lemma format_currency_overflow v e : format_currency v = Raise e -> e = OverflowError.
Proof.
  unfold format_currency. destruct v as [|b|z|x|s]; simpl; try discriminate.
  - destruct (float_of_Z z) as [x|e'] eqn:E; [discriminate|].
    rewrite (float_of_Z_raises z e' E). intros H. now injection H.
  - destruct (float_of_str s) as [x|e'] eqn:E; [discriminate|].
    rewrite (float_of_str_raises s e' E). destruct (str_nonempty s); discriminate.
Qed.

(** Property X4. [format_currency] lets one exception through:
    [OverflowError], for an [int] too large for [float]. [None], a [bool], a
    [float] and any text are always shown. *)
Theorem format_currency_raises v e :
  format_currency v = Raise e ->
  e = OverflowError /\ exists z, v = PInt z /\ float_of_Z z = Raise OverflowError.
Proof.
  intros H. pose proof (format_currency_overflow v e H) as ->.
  split; [reflexivity|]. revert H.
  unfold format_currency. destruct v as [|b|z|x|s]; simpl; try discriminate.
  - destruct (float_of_Z z) as [x|e'] eqn:E; [discriminate|].
    pose proof (float_of_Z_raises z e' E) as ->. intros _. exists z. split; [reflexivity | exact E].
  - destruct (float_of_str s) as [x|e'] eqn:E; [discriminate|].
    rewrite (float_of_str_raises s e' E). destruct (str_nonempty s); discriminate.
Qed.

Lemma format_currency_raises_witness :
  OverflowError = OverflowError /\
  exists z, PInt (10 ^ 400) = PInt z /\ float_of_Z z = Raise OverflowError.
Proof.
  apply (format_currency_raises (PInt (10 ^ 400)) OverflowError). vm_compute. reflexivity.
Defined.

Lemma int_of_str_raises s e : int_of_str s = Raise e -> e = ValueError.
Proof.
  unfold int_of_str. destruct (take_sign _) as [neg r].
  destruct (digitpart r) as [[|c ds] [|c' rest]]; try discriminate;
    try (intros H; now injection H).
  destruct (_ <? _)%nat; [|discriminate]. intros H. now injection H.
Qed.

Lemma str_of_Z_raises z e : str_of_Z z = Raise e -> e = ValueError.
Proof.
  unfold str_of_Z. destruct (within_int_max_str_digits z); [discriminate|].
  intros H. now injection H.
Qed.

Lemma py_str_raises v e : py_str v = Raise e -> e = ValueError.
Proof. destruct v; simpl; try discriminate. apply str_of_Z_raises. Qed.

Lemma py_float_truthy_raises v e :
  truthy v = true -> py_float v = Raise e -> e = ValueError \/ e = OverflowError.
Proof.
  destruct v as [|b|z|x|s]; simpl; try discriminate.
  - intros _ H. right. eapply float_of_Z_raises, H.
  - intros _ H. left. eapply float_of_str_raises, H.
Qed.

Lemma py_int_truthy_raises v e :
  truthy v = true -> py_int v = Raise e -> e = ValueError \/ e = OverflowError.
Proof.
  destruct v as [|b|z|x|s]; simpl; try discriminate.
  - destruct x; simpl; try discriminate; intros _ H; injection H as <-; auto.
  - intros _ H. left. eapply int_of_str_raises, H.
Qed.

Lemma rbind_raise {A B} (r : result A) (k : A -> result B) e :
  rbind r k = Raise e -> r = Raise e \/ exists a, r = Ok a /\ k a = Raise e.
Proof. destruct r as [a|e']; simpl; [eauto|]. intros H. injection H as <-. auto. Qed.

(** Property X5. Whatever the row holds, [generate_system_prompt] raises
    nothing but [ValueError] and [OverflowError], and only for a customer
    that is present. *)
Theorem generate_system_prompt_raises info e :
  generate_system_prompt info = Raise e ->
  info_truthy info = true /\ (e = ValueError \/ e = OverflowError).
Proof.
  unfold generate_system_prompt. destruct info as [d|]; [|discriminate].
  destruct (info_truthy (Some d)); [|discriminate].
  intros H. split; [reflexivity|].
  apply rbind_raise in H as [H|(loan & _ & H)];
    [right; now apply format_currency_overflow in H|].
  apply rbind_raise in H as [H|(emi & _ & H)];
    [right; now apply format_currency_overflow in H|].
  apply rbind_raise in H as [H|(half & Hhalf & H)].
  { destruct (truthy _) eqn:Ht; [|discriminate].
    apply rbind_raise in H as [H|(x & _ & H)]; [|discriminate].
    eapply py_float_truthy_raises; eassumption. }
  apply rbind_raise in H as [H|(half_emi & _ & H)];
    [right; now apply format_currency_overflow in H|].
  apply rbind_raise in H as [H|(score & _ & H)].
  { destruct (negb (truthy _) || _) eqn:Hs; [discriminate|].
    apply orb_false_iff in Hs as [Hs _]. apply negb_false_iff in Hs.
    apply rbind_raise in H as [H|(z & _ & H)].
    - eapply py_int_truthy_raises; eassumption.
    - left. eapply str_of_Z_raises, H. }
  apply rbind_raise in H as [H|(name & _ & H)]; [|discriminate].
  left. eapply py_str_raises, H.
Qed.

Lemma generate_system_prompt_raises_witness :
  info_truthy (Some ann_lee) = true /\ (ValueError = ValueError \/ ValueError = OverflowError).
Proof. apply (generate_system_prompt_raises (Some ann_lee) ValueError). vm_compute. reflexivity. Defined.

Lemma format_currency_numeric v :
  numeric_amount v = true -> exists t, format_currency v = Ok t.
Proof.
  unfold format_currency. destruct v as [|b|z|x|s]; simpl; try discriminate; eauto.
  destruct (float_of_Z z); [eauto | discriminate].
Qed.

Lemma py_float_numeric v :
  numeric_amount v = true -> truthy v = true -> exists x, py_float v = Ok x.
Proof.
  destruct v as [|b|z|x|s]; simpl; try discriminate; eauto.
  destruct (float_of_Z z); [eauto | discriminate].
Qed.

Lemma str_of_Z_within_limit z :
  within_int_max_str_digits z = true -> str_of_Z z = Ok (decimal_of_Z z).
Proof. intros H. unfold str_of_Z. now rewrite H. Qed.

(** Doubling a decimal number adds one digit at most. *)
Lemma nb_digits_double d :
  (Decimal.nb_digits (Decimal.Little.double d) <= S (Decimal.nb_digits d))%nat /\
  (Decimal.nb_digits (Decimal.Little.succ_double d) <= S (Decimal.nb_digits d))%nat.
Proof. induction d; simpl; lia. Qed.

Lemma nb_digits_to_little_uint p k :
  Z.pos p < 2 ^ Z.of_nat k -> (Decimal.nb_digits (Pos.to_little_uint p) <= k)%nat.
Proof.
  revert k. induction p as [p IH|p IH|]; intros k H; simpl.
  - destruct k as [|k]; [simpl in H; lia|].
    rewrite Nat2Z.inj_succ, Z.pow_succ_r in H by lia.
    assert (Hp : Z.pos p < 2 ^ Z.of_nat k) by lia.
    pose proof (IH k Hp). pose proof (nb_digits_double (Pos.to_little_uint p)). lia.
  - destruct k as [|k]; [simpl in H; lia|].
    rewrite Nat2Z.inj_succ, Z.pow_succ_r in H by lia.
    assert (Hp : Z.pos p < 2 ^ Z.of_nat k) by lia.
    pose proof (IH k Hp). pose proof (nb_digits_double (Pos.to_little_uint p)). lia.
  - destruct k as [|k]; [simpl in H; lia | lia].
Qed.

Lemma length_string_of_uint d :
  String.length (NilEmpty.string_of_uint d) = Decimal.nb_digits d.
Proof. induction d; simpl; congruence. Qed.

(** A number below [2 ^ k] has [k] decimal digits at most. *)
Lemma length_digits_of_N n k :
  (0 < k)%nat -> Z.of_N n < 2 ^ Z.of_nat k -> (String.length (digits_of_N n) <= k)%nat.
Proof.
  intros Hk H. unfold digits_of_N. destruct n as [|p]; [simpl; lia|].
  simpl N.to_uint. unfold Pos.to_uint.
  pose proof (nb_digits_to_little_uint p k H) as Hd.
  rewrite <- nb_digits_rev in Hd.
  unfold NilZero.string_of_uint.
  destruct (Decimal.rev (Pos.to_little_uint p)) eqn:E; [simpl; lia| ..];
    rewrite length_string_of_uint; exact Hd.
Qed.

Lemma within_limit_of_bound z :
  Z.abs z < 2 ^ 1024 -> within_int_max_str_digits z = true.
Proof.
  intros H. unfold within_int_max_str_digits. apply Nat.leb_le.
  apply Nat.le_trans with 1024%nat.
  - apply length_digits_of_N; [lia|]. rewrite N2Z.inj_abs_N.
    change (Z.of_nat 1024) with 1024. exact H.
  - unfold int_max_str_digits. lia.
Qed.

(** The whole part of a binary64 number has far fewer digits than [str]
    allows. *)
Lemma int_of_float_within_limit s m e z :
  bounded prec emax m e = true ->
  int_of_float (S754_finite s m e) = Ok z -> within_int_max_str_digits z = true.
Proof.
  intros Hb Hz. unfold bounded, canonical_mantissa in Hb.
  apply andb_true_iff in Hb as [Hc He]. apply Z.eqb_eq in Hc. apply Z.leb_le in He.
  assert (Hd : (digits2_pos m <= 53)%positive)
    by (unfold fexp, emin, prec, emax in Hc; lia).
  pose proof (digits_le_lt m Hd) as Hm.
  cbn [int_of_float] in Hz. injection Hz as <-.
  set (a := if 0 <=? e then Z.pos m * 2 ^ e else Z.pos m / 2 ^ (- e)).
  assert (Ha : 0 <= a < 2 ^ 1024).
  { unfold a. destruct (Z.leb_spec 0 e) as [H0|H0].
    - split; [apply Z.mul_nonneg_nonneg; [lia | apply Z.pow_nonneg; lia]|].
      apply Z.lt_le_trans with (2 ^ 53 * 2 ^ e).
      + apply Z.mul_lt_mono_pos_r; [apply Z.pow_pos_nonneg; lia | exact Hm].
      + rewrite <- Z.pow_add_r by lia.
        apply Z.pow_le_mono_r; unfold prec, emax in He; lia.
    - assert (Hp : 0 < 2 ^ (- e)) by (apply Z.pow_pos_nonneg; lia).
      split; [apply Z.div_pos; lia|].
      apply Z.le_lt_trans with (Z.pos m).
      + apply Z.div_le_upper_bound; [exact Hp | nia].
      + apply Z.lt_trans with (2 ^ 53); [exact Hm | reflexivity]. }
  apply within_limit_of_bound. destruct s; lia.
Qed.

Lemma score_text_numeric v : numeric_score v = true -> exists t, score_text v = Ok t.
Proof.
  intros H. unfold score_text.
  destruct (negb (truthy v) || eq_zero v) eqn:E; [eauto|].
  destruct v as [|b|z|x|t]; try discriminate.
  - destruct b; [|discriminate]. eexists. vm_compute. reflexivity.
  - cbn [numeric_score] in H.
    cbn [py_int rbind]. rewrite (str_of_Z_within_limit z H). eauto.
  - destruct x as [s|s| |s m e]; try discriminate.
    cbn [numeric_score valid_binary] in H.
    destruct (int_of_float (S754_finite s m e)) as [z|err] eqn:Hz; [|discriminate].
    cbn [py_int rbind]. rewrite Hz. cbn [rbind].
    rewrite (str_of_Z_within_limit z (int_of_float_within_limit s m e z H Hz)). eauto.
Qed.

Lemma py_str_prints v : prints v = true -> exists t, py_str v = Ok t.
Proof.
  destruct v as [|b|z|x|t]; cbn [prints py_str]; eauto.
  intros H. rewrite (str_of_Z_within_limit z H). eauto.
Qed.

(** Property X6. A row always gets its prompt when its loan and monthly
    payment are numbers [float()] accepts (or [None], or missing), its
    credit score is a number [int()] accepts and [str()] prints (or [None],
    or missing), and its name is a value [str()] prints: text or anything
    but an [int] of more digits than the interpreter converts. *)
Theorem generate_system_prompt_on_numbers (d : row) :
  prints (dict_get d "Random_Name" (PStr UNKNOWN_CUSTOMER_PLACEHOLDER)) = true ->
  numeric_amount (dict_get d "Current Loan Amount" (PInt 0)) = true ->
  numeric_amount (dict_get d "Monthly Debt" (PInt 0)) = true ->
  numeric_score (dict_get d "Credit Score" (PInt 0)) = true ->
  exists p, generate_system_prompt (Some d) = Ok p.
Proof.
  intros Hname Hloan Hemi Hscore. unfold generate_system_prompt.
  destruct (info_truthy (Some d)); [|eauto].
  destruct (format_currency_numeric _ Hloan) as [loan ->].
  destruct (format_currency_numeric _ Hemi) as [emi ->].
  cbn [rbind].
  destruct (score_text_numeric _ Hscore) as [score Hs]. unfold score_text in Hs.
  destruct (py_str_prints _ Hname) as [name Hn].
  destruct (truthy (dict_get d "Monthly Debt" (PInt 0))) eqn:Ht.
  - destruct (py_float_numeric _ Hemi Ht) as [x ->]. cbn [rbind].
    rewrite (format_currency_number (PFloat (SFmul prec emax x float_half))
               (SFmul prec emax x float_half) eq_refl).
    cbn [rbind]. rewrite Hs. cbn [rbind]. rewrite Hn. cbn [rbind]. eauto.
  - cbn [rbind].
    rewrite (format_currency_number (PInt 0) (S754_zero false) eq_refl).
    cbn [rbind]. rewrite Hs. cbn [rbind]. rewrite Hn. cbn [rbind]. eauto.
Qed.

Lemma generate_system_prompt_on_numbers_witness :
  exists p, generate_system_prompt (Some john_doe) = Ok p.
Proof. apply (generate_system_prompt_on_numbers john_doe); vm_compute; reflexivity. Defined.

Lemma format_has_field (f : field) (template : list piece) (args : field -> string) :
  has_field f template = true -> py_in (args f) (format template args) = true.
Proof.
  induction template as [|p rest IH]; simpl; [discriminate|].
  destruct p as [s| | |g]; try (intros H; apply py_in_skip, IH, H).
  destruct (field_eqb f g) eqn:E; simpl.
  - intros _. assert (f = g) as -> by (destruct f, g; try discriminate; reflexivity).
    apply py_in_here.
  - intros H. apply py_in_skip, IH, H.
Qed.

Lemma template_has_every_field (f : field) :
  has_field f LLM_SYSTEM_PROMPT_TEMPLATE = true.
Proof. destruct f; vm_compute; reflexivity. Qed.

(** Property X7. The prompt of a customer shows five texts of the row: the
    name as [str] prints it (the placeholder when the row has none), the
    loan and the monthly payment as [format_currency] prints them, the half
    payment, which is [format_currency] of [float(payment) * 0.5] (of [0]
    when the payment is falsy), and the credit score as a whole number or
    "N/A". *)
Theorem generate_system_prompt_shows_row (d : row) (p : string) :
  info_truthy (Some d) = true ->
  generate_system_prompt (Some d) = Ok p ->
  exists name loan emi half half_emi score,
    py_str (dict_get d "Random_Name" (PStr UNKNOWN_CUSTOMER_PLACEHOLDER)) = Ok name /\
    format_currency (dict_get d "Current Loan Amount" (PInt 0)) = Ok loan /\
    format_currency (dict_get d "Monthly Debt" (PInt 0)) = Ok emi /\
    half_payment (dict_get d "Monthly Debt" (PInt 0)) = Ok half /\
    format_currency half = Ok half_emi /\
    score_text (dict_get d "Credit Score" (PInt 0)) = Ok score /\
    py_in name p = true /\ py_in loan p = true /\ py_in emi p = true /\
    py_in half_emi p = true /\ py_in score p = true.
Proof.
  intros Hd Hp.
  destruct (generate_system_prompt_steps d p Hd Hp)
    as (name & loan & emi & half & half_emi & score
        & Hname & Hloan & Hemi & Hhalf & Hhalf_emi & Hscore & ->).
  exists name, loan, emi, half, half_emi, score.
  split; [exact Hname|]. split; [exact Hloan|]. split; [exact Hemi|].
  split; [exact Hhalf|]. split; [exact Hhalf_emi|]. split; [exact Hscore|].
  set (args := prompt_args name loan emi half_emi score).
  pose proof (fun f => format_has_field f LLM_SYSTEM_PROMPT_TEMPLATE args
                         (template_has_every_field f)) as Hshow.
  split; [exact (Hshow customer_name)|].
  split; [exact (Hshow loan_amount)|].
  split; [exact (Hshow monthly_debt)|].
  split; [exact (Hshow half_monthly_debt)|].
  exact (Hshow credit_score_text).
Qed.

Lemma generate_system_prompt_shows_row_witness :
  exists name loan emi half half_emi score,
    py_str (dict_get john_doe "Random_Name" (PStr UNKNOWN_CUSTOMER_PLACEHOLDER)) = Ok name /\
    format_currency (dict_get john_doe "Current Loan Amount" (PInt 0)) = Ok loan /\
    format_currency (dict_get john_doe "Monthly Debt" (PInt 0)) = Ok emi /\
    half_payment (dict_get john_doe "Monthly Debt" (PInt 0)) = Ok half /\
    format_currency half = Ok half_emi /\
    score_text (dict_get john_doe "Credit Score" (PInt 0)) = Ok score /\
    py_in name john_doe_prompt = true /\ py_in loan john_doe_prompt = true /\
    py_in emi john_doe_prompt = true /\
    py_in half_emi john_doe_prompt = true /\ py_in score john_doe_prompt = true.
Proof.
  apply (generate_system_prompt_shows_row john_doe john_doe_prompt);
    vm_compute; reflexivity.
Defined.

(** *** The dialogue engine: replies *)

Lemma live_reply_nonempty sv p h : str_nonempty (live_reply sv p h) = true.
Proof.
  unfold live_reply.
  destruct (generate_content sv p _) as [|r]; [reflexivity|].
  assert (Hans : forall t,
    str_nonempty (if str_nonempty (strip t) then strip t else at_a_loss) = true).
  { intros t. destruct (str_nonempty (strip t)) eqn:E; [exact E | reflexivity]. }
  destruct (response_parts r) as [|part parts]; [|apply Hans].
  destruct (response_text r) as [t|]; [|reflexivity].
  destruct (str_nonempty t); [apply Hans | reflexivity].
Qed.

(** Property X8. Whatever the backend answers, and with the backend disabled
    as well, a reply that [call_gemini_model] returns is never the empty
    text; and the call leaves the session as it was. *)
Theorem call_gemini_model_reply_nonempty cfg sv p h w bot w' :
  call_gemini_model cfg sv p h w = (Ok bot, w') ->
  str_nonempty bot = true /\ w' = w.
Proof.
  intros H. split.
  2: { rewrite <- (call_gemini_model_world cfg sv p h w). now rewrite H. }
  revert H. unfold call_gemini_model.
  destruct (gemini_configured cfg).
  - change (negb true) with false. cbv iota.
    unfold ret. intros H. injection H as <- _. apply live_reply_nonempty.
  - change (negb false) with true. cbv iota.
    unfold bind, get_data, ret, raise. cbv beta iota.
    destruct (asked_for_name_in_last_turn (data w) && _);
      [intros H; injection H as <- _; reflexivity|].
    destruct (customer_info (data w)) as [d|];
      [|intros H; injection H as <- _; reflexivity].
    destruct (info_truthy (Some d));
      [|intros H; injection H as <- _; reflexivity].
    destruct (d !! "Random_Name") as [v|]; [|discriminate].
    unfold lift. destruct (py_str v) as [name|e]; [|discriminate].
    intros H. injection H as <- _. reflexivity.
Qed.

Lemma call_gemini_model_reply_nonempty_witness :
  str_nonempty mock_ask_name = true /\
  {| data := active_call_data; speak_calls := 0 |}
  = {| data := active_call_data; speak_calls := 0 |}.
Proof.
  apply (call_gemini_model_reply_nonempty one_customer (echo_services speech_up)
           unknown_prompt [] {| data := active_call_data; speak_calls := 0 |}).
  reflexivity.
Defined.

(** Property X9. The backend is never sent an empty history: at the first
    turn it is sent the trigger prompt instead. Two backends that differ on
    the empty history only give the same reply. *)
Theorem live_reply_never_sends_empty_history sv sv' p h :
  (forall q c, c <> History [] -> generate_content sv q c = generate_content sv' q c) ->
  live_reply sv p h = live_reply sv' p h.
Proof.
  intros Hagree. unfold live_reply.
  destruct h as [|u h]; rewrite Hagree by discriminate; reflexivity.
Qed.

Lemma live_reply_never_sends_empty_history_witness :
  let sv := echo_services speech_up in
  let sv' := {| transcribe_file := transcribe_file sv;
                generate_content := fun q c =>
                  match c with
                  | History [] => GeminiResponse {| response_parts := [Some "never read"];
                                                    response_text := None;
                                                    response_feedback := None |}
                  | _ => generate_content sv q c
                  end;
                stream_memory := stream_memory sv |} in
  live_reply sv "prompt" [] = live_reply sv' "prompt" [].
Proof.
  cbv zeta.
  apply (live_reply_never_sends_empty_history (echo_services speech_up) _ "prompt" []).
  intros q c Hc. destruct c as [[|u h]|s]; [now destruct Hc | reflexivity | reflexivity].
Defined.

(** *** The speech adapter *)

(** Property X10. [text_to_speech] never changes the session and makes one
    synthesis call, or two when the first fails. It returns the audio of the
    text (of the internal-error phrase when the text is empty) when the
    first call succeeds, the audio of the fallback phrase when only the
    second does, and raises when both fail. *)
Theorem text_to_speech_attempts sv t w :
  let n := speak_calls w in
  let said := if str_nonempty t then t else internal_error_text in
  let (r, w') := text_to_speech sv t w in
  data w' = data w /\
  match r with
  | Ok a =>
      (stream_memory sv n = SpeakAudio /\ a = Speech said /\ speak_calls w' = S n) \/
      (stream_memory sv n <> SpeakAudio /\ stream_memory sv (S n) = SpeakAudio /\
       a = Speech fallback_text /\ speak_calls w' = S (S n))
  | Raise _ =>
      stream_memory sv n <> SpeakAudio /\ stream_memory sv (S n) <> SpeakAudio /\
      speak_calls w' = S (S n)
  end.
Proof.
  cbv zeta. unfold text_to_speech, try_except, speak. cbn [speak_calls data].
  destruct (stream_memory sv (speak_calls w)) eqn:E0; cbn [speak_calls data];
    try (destruct (stream_memory sv (S (speak_calls w))) eqn:E1; cbn [speak_calls data]);
    (split; [reflexivity|]);
    first [ left; repeat split; reflexivity
          | right; repeat split; (reflexivity || discriminate)
          | repeat split; (reflexivity || discriminate) ].
Qed.

(** *** Starting a call *)

(** Property X11. [/initiate_call] reads the body of the request before it
    touches the session. With a body it can read (a JSON object whose
    [customerName], if any, is text) it starts from a clean session: its
    answer and the session it leaves do not depend on the session it found.
    With any other body it raises and leaves the session it found exactly as
    it was. *)
Theorem initiate_call_forgets_previous_session cfg sv body s s' :
  match body with
  | BodyObject _ =>
      handle (initiate_call_route cfg sv body) s
      = handle (initiate_call_route cfg sv body) s'
  | _ => exists e, handle (initiate_call_route cfg sv body) s = (Raise e, s)
  end.
Proof.
  destruct body as [| | |customerName].
  1-3: eexists; apply initiate_call_route_unread; reflexivity.
  unfold handle, initiate_call_route. cbv zeta.
  repeat (erewrite bind_ok by reflexivity). reflexivity.
Qed.

Lemma session_after_initiate_resolved cfg sv name d :
  str_nonempty (strip name) = true ->
  get_customer_details (customer_df cfg) (strip name) = Some d ->
  let s' := session_after_initiate cfg sv (Some name) in
  customer_info s' = Some d /\ asked_for_name_in_last_turn s' = false /\
  (length (conversation_history s') <= 1)%nat.
Proof.
  intros Hne Hd. cbv zeta. unfold session_after_initiate. cbv zeta.
  change (default EmptyString (Some name)) with name. rewrite Hne, Hd.
  assert (Ht : info_truthy (Some d) = true)
    by (eapply named_row_truthy, get_customer_details_named, Hd).
  unfold attach. rewrite Ht.
  destruct (generate_system_prompt _) as [p|e]; [|repeat split; simpl; lia].
  destruct (reply_in cfg sv p _) as [bot|e]; [|repeat split; simpl; lia].
  cbn [customer_info set_customer_info active_call_data]. rewrite Ht.
  repeat split; simpl; lia.
Qed.

(** Property X12. A call started with the name of a customer of the
    directory attaches that customer and does not ask for a name, whatever
    the services do; the history holds the first reply at most. *)
Theorem initiate_call_resolves cfg sv name d s :
  str_nonempty (strip name) = true ->
  get_customer_details (customer_df cfg) (strip name) = Some d ->
  let s' := session_after (initiate_call_route cfg sv (BodyObject (Some name))) s in
  customer_info s' = Some d /\ asked_for_name_in_last_turn s' = false /\
  (length (conversation_history s') <= 1)%nat.
Proof.
  intros Hne Hd. cbv zeta. rewrite initiate_call_route_session.
  now apply session_after_initiate_resolved.
Qed.

Lemma initiate_call_resolves_witness :
  let s' := session_after
              (initiate_call_route one_customer (echo_services speech_down)
                 (BodyObject (Some "John DOE ")))
              awaiting_name in
  customer_info s' = Some john_doe /\ asked_for_name_in_last_turn s' = false /\
  (length (conversation_history s') <= 1)%nat.
Proof.
  cbv zeta.
  apply (initiate_call_resolves one_customer (echo_services speech_down) "John DOE "
           john_doe awaiting_name); vm_compute; reflexivity.
Defined.

(** Property X13. A call whose body is a JSON object without
    [customerName], with a blank one, or with a name the directory does not
    have, cannot fail before the first reply: it leaves no customer, the
    first reply as the only entry of the history, and the flag set. *)
Theorem initiate_call_unresolved cfg sv customerName s :
  (str_nonempty (strip (default EmptyString customerName)) = false \/
   get_customer_details (customer_df cfg) (strip (default EmptyString customerName)) = None) ->
  exists bot,
    reply_in cfg sv unknown_prompt active_call_data = Ok bot /\
    session_after (initiate_call_route cfg sv (BodyObject customerName)) s
    = {| customer_info := None;
         conversation_history := [{| entry_role := model; entry_text := bot |}];
         asked_for_name_in_last_turn := true |}.
Proof.
  intros H. rewrite initiate_call_route_session.
  unfold session_after_initiate. cbv zeta.
  set (input := strip (default EmptyString customerName)) in *.
  assert (Hs0 : (if str_nonempty input
                 then attach (get_customer_details (customer_df cfg) input) active_call_data
                 else active_call_data) = active_call_data).
  { destruct H as [-> | ->]; [reflexivity|]. now destruct (str_nonempty input). }
  rewrite Hs0. cbn [customer_info active_call_data].
  change (generate_system_prompt None) with (Ok unknown_prompt). cbv iota.
  destruct (reply_when_unknown cfg sv unknown_prompt active_call_data eq_refl) as [bot Hbot].
  exists bot. split; [exact Hbot|]. rewrite Hbot.
  unfold unknown_prompt. rewrite prompt_has_placeholder. reflexivity.
Qed.

Lemma initiate_call_unresolved_witness :
  exists bot,
    reply_in one_customer (echo_services speech_up) unknown_prompt active_call_data = Ok bot /\
    session_after (initiate_call_route one_customer (echo_services speech_up)
                     (BodyObject (Some "Jane Smith"))) ann_attached
    = {| customer_info := None;
         conversation_history := [{| entry_role := model; entry_text := bot |}];
         asked_for_name_in_last_turn := true |}.
Proof.
  apply (initiate_call_unresolved one_customer (echo_services speech_up) (Some "Jane Smith")
           ann_attached).
  right. vm_compute. reflexivity.
Defined.

(** *** Turns: answers and what a request changes *)

(** Property X14. [/process_audio] never lets an exception out. It answers
    with the JSON error "No audio data" and status 400 exactly when the
    request has no upload; with an upload it answers with audio and status
    200, or with the JSON error "Critical System Error" and status 500.
    The apology synthesised by the error handler is never sent. *)
Theorem process_audio_route_answers cfg sv audio_data s :
  exists r,
    answer_of (process_audio_route cfg sv audio_data) s = Ok r /\
    ((audio_data = None /\ r = Json "No audio data" 400) \/
     (audio_data <> None /\
      ((exists a, r = SendFile a 200) \/
       r = Json "Critical System Error" 500))).
Proof.
  destruct audio_data as [buf|]; [|eexists; split; [reflexivity | left; auto]].
  unfold answer_of, handle, process_audio_route, try_except.
  destruct (process_audio_body cfg sv buf _) as [[r|e] w'] eqn:E.
  - apply process_audio_body_ok in E as [a ->].
    eexists. split; [reflexivity|]. right. split; [discriminate | left; eauto].
  - destruct (error_handler_spec sv w') as (w'' & H & _).
    unfold try_except in H. rewrite H.
    eexists. split; [reflexivity|]. right. split; [discriminate | right; reflexivity].
Qed.

(** Property X15. A request without audio the code can use leaves the
    session as it was: without an upload the answer is the JSON error with
    status 400; when transcription raises, the answer has status 500. *)
Theorem process_audio_without_transcript cfg sv audio_data s :
  (audio_data = None \/
   exists buf, audio_data = Some buf /\ transcribe_file sv buf = SttRaises) ->
  session_after (process_audio_route cfg sv audio_data) s = s /\
  ends_in_error (answer_of (process_audio_route cfg sv audio_data) s) = true.
Proof.
  intros [-> | (buf & -> & Ht)]; [split; reflexivity|].
  split; [rewrite process_audio_route_session; now rewrite Ht|].
  unfold answer_of, handle, process_audio_route, try_except, process_audio_body,
    transcribe, bind, send_file_with_status, raise, ret.
  rewrite Ht.
  destruct (text_to_speech sv unexpected_problem _) as [[a|e] w']; reflexivity.
Qed.

Lemma process_audio_without_transcript_witness :
  let sv := {| transcribe_file := fun _ => SttRaises;
               generate_content := fun _ _ => GeminiRaises;
               stream_memory := speech_up |} in
  session_after (process_audio_route one_customer sv (Some "noise")) awaiting_name
  = awaiting_name /\
  ends_in_error (answer_of (process_audio_route one_customer sv (Some "noise")) awaiting_name)
  = true.
Proof.
  cbv zeta.
  apply (process_audio_without_transcript one_customer _ (Some "noise") awaiting_name).
  right. exists "noise". split; reflexivity.
Defined.

Lemma attached_after_customer_utterance cfg t s :
  info_truthy (customer_info s) = true ->
  customer_info (after_customer_utterance cfg t s) = customer_info s /\
  asked_for_name_in_last_turn (after_customer_utterance cfg t s)
  = asked_for_name_in_last_turn s.
Proof.
  intros H. unfold after_customer_utterance. cbv zeta.
  cbn [customer_info append_entry set_conversation_history asked_for_name_in_last_turn].
  rewrite H, andb_false_r. split; reflexivity.
Qed.

(** Property X16. Once a customer is attached, [/process_audio] neither
    replaces nor drops it, and it does not touch the flag: only the history
    changes, whatever the request and the services are. *)
Theorem attached_customer_is_kept cfg sv audio_data s :
  info_truthy (customer_info s) = true ->
  let s' := session_after (process_audio_route cfg sv audio_data) s in
  customer_info s' = customer_info s /\
  asked_for_name_in_last_turn s' = asked_for_name_in_last_turn s.
Proof.
  intros H. cbv zeta. rewrite process_audio_route_session.
  destruct audio_data as [buf|]; [|split; reflexivity].
  destruct (transcribe_file sv buf) as [|t]; [split; reflexivity|].
  destruct (str_nonempty t); [|split; reflexivity].
  unfold session_after_turn. cbv zeta.
  destruct (attached_after_customer_utterance cfg t s H) as [Hci Hflag].
  destruct (generate_system_prompt _) as [p|e]; [|split; assumption].
  destruct (reply_in cfg sv p _) as [bot|e]; [|split; assumption].
  rewrite customer_info_after_agent_reply, flag_after_agent_reply, Hci, H.
  split; [reflexivity | exact Hflag].
Qed.

Lemma attached_customer_is_kept_witness :
  let s := session_after
             (initiate_call_route one_customer (echo_services speech_up)
                (BodyObject (Some "john doe")))
             active_call_data in
  let s' := session_after
              (process_audio_route one_customer (echo_services speech_up) (Some "Ann Lee")) s in
  customer_info s' = customer_info s /\
  asked_for_name_in_last_turn s' = asked_for_name_in_last_turn s.
Proof.
  cbv zeta.
  apply (attached_customer_is_kept one_customer (echo_services speech_up) (Some "Ann Lee")).
  vm_compute. reflexivity.
Defined.

(** *** The customer across turns *)

Lemma pending_after_customer_utterance cfg t s :
  asked_for_name_in_last_turn s = true ->
  info_truthy (customer_info s) = false ->
  after_customer_utterance cfg t s
  = set_asked_for_name false
      (attach (get_customer_details (customer_df cfg) (strip t)) (append_entry user t s)).
Proof.
  intros Hflag Hinfo. unfold after_customer_utterance. cbv zeta.
  cbn [append_entry set_conversation_history asked_for_name_in_last_turn customer_info].
  now rewrite Hflag, Hinfo.
Qed.

Lemma settled_after_customer_utterance cfg t s :
  asked_for_name_in_last_turn s && negb (info_truthy (customer_info s)) = false ->
  after_customer_utterance cfg t s = append_entry user t s.
Proof.
  intros H. unfold after_customer_utterance. cbv zeta.
  cbn [append_entry set_conversation_history asked_for_name_in_last_turn customer_info].
  now rewrite H.
Qed.

Lemma customer_info_session_after_turn cfg sv t s :
  customer_info (session_after_turn cfg sv t s)
  = customer_info (after_customer_utterance cfg t s).
Proof.
  unfold session_after_turn. cbv zeta.
  destruct (generate_system_prompt _) as [p|e]; [|reflexivity].
  destruct (reply_in cfg sv p _) as [bot|e]; [|reflexivity].
  apply customer_info_after_agent_reply.
Qed.

(** Property X17. When a name is pending and the transcript, trimmed, names
    a customer of the directory, [/process_audio] attaches that customer and
    clears the flag, also when the turn fails afterwards. *)
Theorem pending_name_resolved cfg sv buf t d s :
  asked_for_name_in_last_turn s = true ->
  info_truthy (customer_info s) = false ->
  transcribe_file sv buf = SttTranscript t ->
  str_nonempty t = true ->
  get_customer_details (customer_df cfg) (strip t) = Some d ->
  let s' := session_after (process_audio_route cfg sv (Some buf)) s in
  customer_info s' = Some d /\ asked_for_name_in_last_turn s' = false.
Proof.
  intros Hflag Hinfo Ht Hne Hd. cbv zeta.
  rewrite process_audio_route_session, Ht, Hne.
  assert (Htruthy : info_truthy (Some d) = true)
    by (eapply named_row_truthy, get_customer_details_named, Hd).
  assert (H1 : customer_info (after_customer_utterance cfg t s) = Some d /\
               asked_for_name_in_last_turn (after_customer_utterance cfg t s) = false).
  { rewrite (pending_after_customer_utterance cfg t s Hflag Hinfo), Hd.
    unfold attach. rewrite Htruthy. split; reflexivity. }
  destruct H1 as [Hci Hfl].
  split; [now rewrite customer_info_session_after_turn|].
  unfold session_after_turn. cbv zeta.
  destruct (generate_system_prompt _) as [p|e]; [|exact Hfl].
  destruct (reply_in cfg sv p _) as [bot|e]; [|exact Hfl].
  rewrite flag_after_agent_reply, Hci, Htruthy. exact Hfl.
Qed.

Lemma pending_name_resolved_witness :
  let s' := session_after
              (process_audio_route one_customer (echo_services speech_down)
                 (Some " John Doe ")) awaiting_name in
  customer_info s' = Some john_doe /\ asked_for_name_in_last_turn s' = false.
Proof.
  cbv zeta.
  apply (pending_name_resolved one_customer (echo_services speech_down) " John Doe "
           " John Doe " john_doe awaiting_name); vm_compute; reflexivity.
Defined.

(** Property X18. [/process_audio] changes the customer of the session in
    one way only: a name was pending, no customer was attached, and the
    trimmed transcript was found in the directory. *)
Theorem customer_changes_only_by_lookup cfg sv audio_data s :
  let s' := session_after (process_audio_route cfg sv audio_data) s in
  customer_info s' = customer_info s \/
  (asked_for_name_in_last_turn s = true /\
   info_truthy (customer_info s) = false /\
   exists buf t d,
     audio_data = Some buf /\ transcribe_file sv buf = SttTranscript t /\
     get_customer_details (customer_df cfg) (strip t) = Some d /\
     customer_info s' = Some d).
Proof.
  cbv zeta. rewrite process_audio_route_session.
  destruct audio_data as [buf|]; [|now left].
  destruct (transcribe_file sv buf) as [|t] eqn:Ht; [now left|].
  destruct (str_nonempty t); [|now left].
  rewrite customer_info_session_after_turn.
  destruct (asked_for_name_in_last_turn s) eqn:Hflag.
  - destruct (info_truthy (customer_info s)) eqn:Hinfo.
    + left. rewrite settled_after_customer_utterance; [reflexivity|].
      now rewrite Hflag, Hinfo.
    + rewrite (pending_after_customer_utterance cfg t s Hflag Hinfo).
      destruct (get_customer_details (customer_df cfg) (strip t)) as [d|] eqn:Hd.
      * right. split; [reflexivity|]. split; [reflexivity|].
        exists buf, t, d. repeat split; try assumption.
        unfold attach.
        now rewrite (named_row_truthy d (get_customer_details_named _ _ _ Hd)).
      * now left.
  - left. rewrite settled_after_customer_utterance; [reflexivity|].
    now rewrite Hflag.
Qed.

Lemma flag_cleared_after_customer_utterance cfg t s :
  flag_consistent s ->
  asked_for_name_in_last_turn (after_customer_utterance cfg t s) = false.
Proof.
  intros Hc. destruct (asked_for_name_in_last_turn s) eqn:Hflag.
  - rewrite pending_after_customer_utterance; [reflexivity | exact Hflag |].
    now rewrite (Hc Hflag).
  - rewrite settled_after_customer_utterance; [exact Hflag|]. now rewrite Hflag.
Qed.

(** Property X19. With the mock dialogue engine (no Gemini key), a turn with
    a transcript never leaves a name pending: the name is looked up once,
    after the call start, and a caller who is not found then is not asked
    again. *)
Theorem mock_engine_asks_for_name_once cfg sv buf t s :
  gemini_configured cfg = false ->
  flag_consistent s ->
  transcribe_file sv buf = SttTranscript t ->
  str_nonempty t = true ->
  asked_for_name_in_last_turn
    (session_after (process_audio_route cfg sv (Some buf)) s) = false.
Proof.
  intros Hoff Hc Ht Hne. rewrite process_audio_route_session, Ht, Hne.
  pose proof (flag_cleared_after_customer_utterance cfg t s Hc) as Hfl.
  unfold session_after_turn. cbv zeta.
  destruct (generate_system_prompt _) as [p|e]; [|exact Hfl].
  rewrite (reply_in_mock cfg sv p _ Hoff), Hfl. cbn [andb]. cbv iota.
  destruct (customer_info (after_customer_utterance cfg t s)) as [d|] eqn:Hci.
  - destruct (info_truthy (Some d)) eqn:Hd.
    + destruct (d !! "Random_Name") as [v|]; [|exact Hfl].
      destruct (py_str v) as [name|e]; [|exact Hfl]. cbn [rbind].
      rewrite flag_after_agent_reply, Hci, Hd. exact Hfl.
    + rewrite flag_after_agent_reply, Hci, Hd.
      replace (asks_for_name mock_ask_name) with false by (vm_compute; reflexivity).
      rewrite andb_false_r. exact Hfl.
  - rewrite flag_after_agent_reply, Hci.
    replace (asks_for_name mock_ask_name) with false by (vm_compute; reflexivity).
    rewrite andb_false_r. exact Hfl.
Qed.

Lemma mock_engine_asks_for_name_once_witness :
  asked_for_name_in_last_turn
    (session_after
       (process_audio_route one_customer (echo_services speech_up) (Some "Jane Smith"))
       awaiting_name) = false.
Proof.
  apply (mock_engine_asks_for_name_once one_customer (echo_services speech_up)
           "Jane Smith" "Jane Smith" awaiting_name);
    [reflexivity | intros _; reflexivity | reflexivity | reflexivity].
Defined.

(** *** The history across failed turns *)

Lemma composer_raises_on_attached info e :
  generate_system_prompt info = Raise e -> info_truthy info = true.
Proof.
  intros H. revert H.
  unfold generate_system_prompt. destruct info as [d|]; [|discriminate].
  destruct (info_truthy (Some d)); [reflexivity | discriminate].
Qed.

Lemma failed_composition_turn cfg sv buf t e s :
  generate_system_prompt (customer_info s) = Raise e ->
  transcribe_file sv buf = SttTranscript t ->
  str_nonempty t = true ->
  session_after (process_audio_route cfg sv (Some buf)) s = append_entry user t s.
Proof.
  intros He Ht Hne. rewrite process_audio_route_session, Ht, Hne.
  unfold session_after_turn. cbv zeta.
  rewrite settled_after_customer_utterance
    by (rewrite (composer_raises_on_attached _ _ He); apply andb_false_r).
  cbn [append_entry set_conversation_history customer_info]. now rewrite He.
Qed.

(** Property X20. The bound on the history holds for completed turns only.
    Once the prompt of the attached customer cannot be composed, every
    request with a transcript adds the utterance and trims nothing: after
    [n] such requests the history is [n] entries longer, and the customer is
    still the same. *)
Theorem failed_turns_grow_history cfg sv uploads e s :
  generate_system_prompt (customer_info s) = Raise e ->
  Forall (fun buf => exists t, transcribe_file sv buf = SttTranscript t /\
                               str_nonempty t = true) uploads ->
  let s' := after_uploads cfg sv uploads s in
  customer_info s' = customer_info s /\
  length (conversation_history s')
  = (length (conversation_history s) + length uploads)%nat.
Proof.
  intros He Hall. cbv zeta. revert s He.
  induction Hall as [|buf rest (t & Ht & Hne) _ IH]; intros s He.
  - simpl. split; [reflexivity | lia].
  - change (after_uploads cfg sv (buf :: rest) s)
      with (after_uploads cfg sv rest
              (session_after (process_audio_route cfg sv (Some buf)) s)).
    rewrite (failed_composition_turn cfg sv buf t e s He Ht Hne).
    destruct (IH (append_entry user t s) He) as [Hci Hlen].
    split; [exact Hci|]. rewrite Hlen. cbn [append_entry set_conversation_history conversation_history].
    rewrite length_app. simpl. lia.
Qed.

Lemma failed_turns_grow_history_witness :
  let s' := after_uploads text_scores (echo_services speech_up)
              (repeat "hello" 25) ann_attached in
  customer_info s' = customer_info ann_attached /\
  length (conversation_history s')
  = (length (conversation_history ann_attached) + length (repeat "hello" 25))%nat.
Proof.
  cbv zeta.
  apply (failed_turns_grow_history text_scores (echo_services speech_up)
           (repeat "hello" 25) ValueError ann_attached).
  - vm_compute. reflexivity.
  - apply List.Forall_forall. intros buf Hin. apply repeat_spec in Hin. subst buf.
    exists "hello". split; reflexivity.
Defined.
